(** * crawlddit: a shallow embedding of the reddit image crawler

    The development follows [crawlddit.py] (pagination loop, per-page
    extraction, media link resolution, file name derivation) and
    [utils/downloader.py] (the download loop over the crawled queue and its
    sqlite store).

    Python values are modelled as follows: [str] as [string], [None]-able
    values as [option], integers as [Z], a [deque] as a [list] consumed from
    the left, exceptions as the [Raise] branch of [result]. *)

From Stdlib Require Import String Ascii List ZArith Lia Bool Arith.
Import ListNotations.

Set Warnings "-register-all".

Open Scope string_scope.
Open Scope list_scope.

(** ** Exceptions and results *)

Inductive exn : Type :=
| AttributeError            (* attribute access on None *)
| TypeError                 (* None["k"], join of a None, ... *)
| KeyError (key : string)   (* tag["k"] with no such attribute *)
| NameError (name : string) (* unbound global name *)
| FileNotFoundError
| OperationalError          (* sqlite3: the database file cannot be opened *)
| URLError (reason : string)
| WebDriverException.

Inductive result (A : Type) : Type :=
| Ok (a : A)
| Raise (e : exn).

Arguments Ok {A} a.
Arguments Raise {A} e.

Definition bind {A B : Type} (r : result A) (k : A -> result B) : result B :=
  match r with
  | Ok a => k a
  | Raise e => Raise e
  end.

Notation "x <- r ;; k" := (bind r (fun x => k))
  (at level 61, r at next level, right associativity).

Definition raises {A : Type} (r : result A) : Prop := exists e, r = Raise e.

Definition is_ok {A : Type} (r : result A) : bool :=
  match r with Ok _ => true | Raise _ => false end.

(** ** Strings as Python uses them *)

Module Str.

(** [sub in s] *)
Fixpoint contains (sub s : string) : bool :=
  prefix sub s ||
  match s with
  | EmptyString => false
  | String _ s' => contains sub s'
  end.

(** [s.split(sep)] for a one-character separator; the list is never empty. *)
Fixpoint split (sep : ascii) (s : string) : list string :=
  match s with
  | EmptyString => [EmptyString]
  | String c s' =>
      if Ascii.eqb c sep then EmptyString :: split sep s'
      else match split sep s' with
           | h :: t => String c h :: t
           | [] => [String c EmptyString]
           end
  end.

(** truthiness of a [str] *)
Definition truthy (s : string) : bool :=
  match s with EmptyString => false | _ => true end.

(** truthiness of a value that is a [str] or [None] *)
Definition truthy_opt (o : option string) : bool :=
  match o with None => false | Some s => truthy s end.

Definition newline : ascii := "010"%char.

Definition is_newline (c : ascii) : bool := Ascii.eqb c newline.

(** [\s] of the [re] module on ASCII text: the space, tab to carriage
    return, and the four separators 0x1C to 0x1F *)
Definition is_space (c : ascii) : bool :=
  let n := nat_of_ascii c in
  Nat.eqb n 32 || (Nat.leb 9 n && Nat.leb n 13) || (Nat.leb 28 n && Nat.leb n 31).

Fixpoint no_newline (s : string) : bool :=
  match s with
  | EmptyString => true
  | String c s' => negb (is_newline c) && no_newline s'
  end.

Fixpoint no_char (x : ascii) (s : string) : bool :=
  match s with
  | EmptyString => true
  | String c s' => negb (Ascii.eqb c x) && no_char x s'
  end.

Fixpoint take (n : nat) (s : string) : string :=
  match n, s with
  | S n', String c s' => String c (take n' s')
  | _, _ => EmptyString
  end.

Fixpoint drop (n : nat) (s : string) : string :=
  match n, s with
  | S n', String _ s' => drop n' s'
  | _, _ => s
  end.

End Str.

(** ** Regular expressions the program builds

    [get_image_filename] matches the pattern ['.+\\' + extension] at the
    start of the candidate: a greedy, non-empty run of characters other than
    a line break, followed by the extension taken literally (the backslash
    escapes the dot the extension starts with). *)

Module Re.

(** The greatest [k] such that the first [k] characters of [s] contain no
    line break and [lit] occurs in [s] at offset [k]: where the greedy
    [.*] ends once backtracking has found the literal. *)
Fixpoint last_offset (lit s : string) : option nat :=
  let here := if prefix lit s then Some 0 else None in
  match s with
  | EmptyString => here
  | String c s' =>
      if Str.is_newline c then here
      else match last_offset lit s' with
           | Some k => Some (S k)
           | None => here
           end
  end.

(** [re.match('.+' + lit, s)]: the matched text ([group(0)]), or [None]. *)
Definition match_dotplus (lit s : string) : option string :=
  match last_offset lit s with
  | Some (S k) => Some (Str.take (S k + String.length lit) s)
  | _ => None
  end.

(** [re.search(r'\sthing\sid-t3.+', s)] as a truth value. *)
Definition thing_at (s : string) : bool :=
  match s with
  | String c0 (String "t" (String "h" (String "i" (String "n" (String "g"
      (String c1 rest)))))) =>
      Str.is_space c0 && Str.is_space c1 && prefix "id-t3" rest &&
      match Str.drop 5 rest with
      | String c _ => negb (Str.is_newline c)
      | EmptyString => false
      end
  | _ => false
  end.

Fixpoint thing_search (s : string) : bool :=
  thing_at s ||
  match s with
  | EmptyString => false
  | String _ s' => thing_search s'
  end.

End Re.

(** ** Known formats and domains, file names *)

Definition FILE_FORMATS : list string := [".jpg"; ".jpeg"; ".png"; ".gif"; ".webm"].
Definition DOMAINS : list string := ["reddit"; "imgur"; "gfycat"; "tumblr"; "blogspot"].

(** The [for x in xs: if x in url: return x] loop shared by [known_domain]
    and [known_file_format]; falling off the loop returns [None]. *)
Fixpoint first_contained (xs : list string) (url : string) : option string :=
  match xs with
  | [] => None
  | x :: xs' => if Str.contains x url then Some x else first_contained xs' url
  end.

Definition known_domain (url : string) : option string :=
  first_contained DOMAINS url.

Definition known_file_format (url : string) : option string :=
  first_contained FILE_FORMATS url.

(** [url.split('/')[-1]] *)
Definition last_segment (url : string) : string :=
  last (Str.split "/" url) EmptyString.

(** [''.join(['.+\\', extension])]: joining a [None] is a [TypeError]. The
    pattern is represented by the literal that has to follow [.+]. *)
Definition join_pattern (extension : option string) : result string :=
  match extension with
  | Some ext => Ok ext
  | None => Raise TypeError
  end.

(** [re.match(pattern, candidate).group(0)]: [.group] of [None] is an
    [AttributeError]. *)
Definition group0 (m : option string) : result string :=
  match m with
  | Some text => Ok text
  | None => Raise AttributeError
  end.

Definition get_image_filename (url : string) : result string :=
  let candidate := last_segment url in
  let extension := known_file_format url in
  pattern <- join_pattern extension ;;
  group0 (Re.match_dotplus pattern candidate).

Record image : Type := {
  image_url : option string;
  filename : option string
}.

Definition image_dictionary (url : option string) (filename : option string) : image :=
  {| image_url := url; filename := filename |}.

(** ** The document tree (BeautifulSoup)

    A parsed page is a tree of tags and text. [find] and [find_all] walk the
    descendants of a tag in document order; [find] returns the first match or
    [None]. *)

Inductive node : Type :=
| NavigableString (text : string)
| Tag (name : string) (attrs : list (string * string)) (contents : list node).

Module Soup.

Fixpoint descendants (n : node) : list node :=
  match n with
  | NavigableString _ => []
  | Tag _ _ cs =>
      (fix walk (l : list node) : list node :=
         match l with
         | [] => []
         | c :: l' => c :: descendants c ++ walk l'
         end) cs
  end.

Fixpoint get_attr (k : string) (attrs : list (string * string)) : option string :=
  match attrs with
  | [] => None
  | (k', v) :: attrs' => if String.eqb k' k then Some v else get_attr k attrs'
  end.

(** The value of a [class] attribute as the library presents it: split at
    runs of whitespace, and the pieces joined again by single spaces. *)
Fixpoint collapse_ws (s : string) : string :=
  match s with
  | EmptyString => EmptyString
  | String c s' =>
      if Str.is_space c then
        match s' with
        | String c' _ =>
            if Str.is_space c' then collapse_ws s'
            else String " " (collapse_ws s')
        | EmptyString => String " " EmptyString
        end
      else String c (collapse_ws s')
  end.

Definition class_values (v : string) : list string :=
  Str.split " " (collapse_ws v).

(** An attribute filter [attrs={'class': test}]: the test is tried on each
    class value, then on the joined text. *)
Definition class_matches (test : string -> bool) (attrs : list (string * string)) : bool :=
  match get_attr "class" attrs with
  | None => false
  | Some v => existsb test (class_values v) || test (collapse_ws v)
  end.

(** [attrs={'class': 'name'}] *)
Definition class_is (c : string) : list (string * string) -> bool :=
  class_matches (String.eqb c).

(** [attrs={'class': re.compile(r'\sthing\sid-t3.+')}] *)
Definition class_thing : list (string * string) -> bool :=
  class_matches Re.thing_search.

(** [attrs={'id': 'name'}] *)
Definition id_is (i : string) (attrs : list (string * string)) : bool :=
  match get_attr "id" attrs with
  | None => false
  | Some v => String.eqb v i
  end.

Definition no_filter (attrs : list (string * string)) : bool := true.

Definition matches (name : string) (filter : list (string * string) -> bool)
    (n : node) : bool :=
  match n with
  | Tag name' attrs _ => String.eqb name' name && filter attrs
  | NavigableString _ => false
  end.

Definition find_all (name : string) (filter : list (string * string) -> bool)
    (n : node) : list node :=
  List.filter (matches name filter) (descendants n).

Definition find (name : string) (filter : list (string * string) -> bool)
    (n : node) : option node :=
  List.find (matches name filter) (descendants n).

(** [x.find(...)] where [x] may be [None] *)
Definition find_in (x : option node) (name : string)
    (filter : list (string * string) -> bool) : result (option node) :=
  match x with
  | None => Raise AttributeError
  | Some n => Ok (find name filter n)
  end.

(** [x.a]: the first [a] tag below [x] *)
Definition dot_a (x : option node) : result (option node) :=
  find_in x "a" no_filter.

(** [x['key']] *)
Definition getitem (x : option node) (key : string) : result string :=
  match x with
  | None => Raise TypeError
  | Some (NavigableString _) => Raise TypeError
  | Some (Tag _ attrs _) =>
      match get_attr key attrs with
      | Some v => Ok v
      | None => Raise (KeyError key)
      end
  end.

(** [x.has_attr('key')] *)
Definition has_attr (x : option node) (key : string) : result bool :=
  match x with
  | None => Raise AttributeError
  | Some (NavigableString _) => Raise AttributeError
  | Some (Tag _ attrs _) =>
      Ok (match get_attr key attrs with Some _ => true | None => false end)
  end.

(** [tag.string]: the text of a tag with exactly one child, followed
    through single-child tags; [None] otherwise. *)
Fixpoint string_of (n : node) : option string :=
  match n with
  | NavigableString s => Some s
  | Tag _ _ [c] => string_of c
  | Tag _ _ _ => None
  end.

(** [x.string] *)
Definition dot_string (x : option node) : result (option string) :=
  match x with
  | None => Raise AttributeError
  | Some n => Ok (string_of n)
  end.

End Soup.

(** ** The outside world of the crawler

    [urlopen_soup url] is [BeautifulSoup(urlopen(url).read(), 'lxml')], the
    plain request of [make_soup]; [rendered history url] is what the browser
    session shows for [url] after the pages of [history] were loaded
    ([make_beautiful_soup], redirect dialog included). Both may raise. *)

Record Web : Type := {
  urlopen_soup : string -> result node;
  rendered : list string -> string -> result node
}.

Definition make_soup (web : Web) (url : string) : result node :=
  urlopen_soup web url.

(** ** Sub-extractions of one post container *)

Definition get_p_title_tag (div : node) : option node :=
  Soup.find "p" (Soup.class_is "title") div.

Definition get_post_url (div : node) : result string :=
  let p := get_p_title_tag div in
  a <- Soup.dot_a p ;;
  Soup.getitem a "href".

Definition get_post_domain (div : node) : result (option string) :=
  let p := get_p_title_tag div in
  span <- Soup.find_in p "span" (Soup.class_is "domain") ;;
  a <- Soup.dot_a span ;;
  Soup.dot_string a.

Definition get_post_title (div : node) : result (option string) :=
  a <- Soup.dot_a (get_p_title_tag div) ;;
  Soup.dot_string a.

Definition get_post_timestamp (div : node) : result (option string) :=
  let time := Soup.find "time" Soup.no_filter div in
  has <- Soup.has_attr time "datetime" ;;
  if has then
    v <- Soup.getitem time "datetime" ;; Ok (Some v)
  else Ok None.

Definition get_link_to_comments (div : node) : result string :=
  let li := Soup.find "li" (Soup.class_is "first") div in
  a <- Soup.dot_a li ;;
  Soup.getitem a "href".

(** ** Media link resolution *)

Definition parse_gfycat (web : Web) (url : string) : result (option string) :=
  soup <- make_soup web url ;;
  let source := Soup.find "source" (Soup.id_is "webmSource") soup in
  match source with
  | Some _ => src <- Soup.getitem source "src" ;; Ok (Some src)
  | None => Ok None
  end.

Definition get_image_link_from_allowed_domain (web : Web) (url : string)
    (domain : option string) : result (option string) :=
  match domain with
  | Some d =>
      if String.eqb d "reddit" then Ok None
      else if String.eqb d "imgur" then Ok None
      else if String.eqb d "gfycat" then parse_gfycat web url
      else if String.eqb d "tumblr" then Ok None
      else if String.eqb d "blogspot" then Ok None
      else Ok None
  | None => Ok None
  end.

Definition get_image (web : Web) (div : node) : result image :=
  url <- get_post_url div ;;
  if Str.truthy_opt (known_file_format url) then
    name <- get_image_filename url ;;
    Ok (image_dictionary (Some url) (Some name))
  else
    image_url <- get_image_link_from_allowed_domain web url (known_domain url) ;;
    filename <- (if Str.truthy_opt image_url
                 then match image_url with
                      | Some u => name <- get_image_filename u ;; Ok (Some name)
                      | None => Ok None
                      end
                 else Ok None) ;;
    Ok (image_dictionary image_url filename).

(** ** Post records and the extraction of one page *)

Record post : Type := {
  url : string;
  image_of : image;
  domain : option string;
  post_title : option string;
  posted_on : option string;
  link_to_comments : string;
  on_page : option string;
  html_status_token : Z
}.

(** One element of the generator in [get_files_from_a_page]: the entries of
    the dictionary are evaluated in the order they are written. *)
Definition post_of_div (web : Web) (page_url : option string) (div : node) : result post :=
  u <- get_post_url div ;;
  i <- get_image web div ;;
  d <- get_post_domain div ;;
  t <- get_post_title div ;;
  p <- get_post_timestamp div ;;
  l <- get_link_to_comments div ;;
  Ok {| url := u; image_of := i; domain := d; post_title := t; posted_on := p;
        link_to_comments := l; on_page := page_url; html_status_token := 0 |}.

(** [deque(f(div) for div in things)]: the deque consumes the generator at
    once, so the first exception leaves the comprehension (and the
    function) with nothing built. *)
Fixpoint collect (web : Web) (page_url : option string) (things : list node)
    : result (list post) :=
  match things with
  | [] => Ok []
  | div :: rest =>
      r <- post_of_div web page_url div ;;
      rs <- collect web page_url rest ;;
      Ok (r :: rs)
  end.

Definition things_of (soup : node) : list node :=
  Soup.find_all "div" Soup.class_thing soup.

Definition next_page_span_of (soup : node) : option node :=
  Soup.find "span" (Soup.class_is "next-button") soup.

Definition get_files_from_a_page (web : Web) (soup : node) (page_url : option string)
    : result (list post * option string) :=
  let things := things_of soup in
  images <- collect web page_url things ;;
  let next_page_span := next_page_span_of soup in
  next_page <- match next_page_span with
               | Some _ =>
                   a <- Soup.dot_a next_page_span ;;
                   href <- Soup.getitem a "href" ;;
                   Ok (Some href)
               | None => Ok None
               end ;;
  Ok (images, next_page).

(** ** The pagination loop *)

(** The browser session held by [get_all_posts]: the pages it was asked to
    load (oldest first), the politeness naps taken and whether it was closed. *)
Record session : Type := {
  visited : list string;
  naps : nat;
  closed : bool
}.

(** [webdriver.PhantomJS()] *)
Definition new_session : session :=
  {| visited := []; naps := 0; closed := false |}.

(** [make_beautiful_soup(url, driver)]: [driver.get(url)], then the page
    source parsed. The loop only ever passes a non-empty string. *)
Definition make_beautiful_soup (web : Web) (url : option string) (s : session)
    : session * result node :=
  match url with
  | Some u =>
      ({| visited := visited s ++ [u]; naps := naps s; closed := closed s |},
       rendered web (visited s) u)
  | None => (s, Raise WebDriverException)
  end.

(** [sleep(crawl_time)] *)
Definition sleep (s : session) : session :=
  {| visited := visited s; naps := S (naps s); closed := closed s |}.

(** [driver.close()] *)
Definition driver_close (s : session) : session :=
  {| visited := visited s; naps := naps s; closed := true |}.

(** truthiness of an [int] *)
Definition truthy_int (n : Z) : bool := negb (Z.eqb n 0).

(** The [while (page <= pages) and crawl] loop and what follows it. [fuel]
    bounds the number of iterations: the outcome is [None] when the bound is
    reached with the loop still running, and the session is the one reached
    by then. An exception leaves the function at once, with the session
    still open. *)
Fixpoint crawl_loop (fuel : nat) (web : Web) (pages : Z) (url : option string)
    (page : Z) (crawl : bool) (images : list post) (s : session)
    : session * option (result (list post)) :=
  if (page <=? pages)%Z && crawl then
    match fuel with
    | O => (s, None)
    | S fuel' =>
        match make_beautiful_soup web url s with
        | (s1, Raise e) => (s1, Some (Raise e))
        | (s1, Ok soup) =>
            match get_files_from_a_page web soup url with
            | Raise e => (s1, Some (Raise e))
            | Ok (pictures, next_page) =>
                let images := images ++ pictures in
                let url := next_page in
                let page := if truthy_int pages then (page + 1)%Z else page in
                let crawl := if negb (Str.truthy_opt next_page) then false else crawl in
                crawl_loop fuel' web pages url page crawl images (sleep s1)
            end
        end
    end
  else (driver_close s, Some (Ok images)).

Definition get_all_posts (fuel : nat) (web : Web) (url : string) (pages : Z)
    : session * option (result (list post)) :=
  let driver := new_session in
  let page := if truthy_int pages then 1%Z else 0%Z in
  crawl_loop fuel web pages (Some url) page true [] driver.

(** The number of listing pages a session fetched. *)
Definition pages_fetched (s : session) : nat := List.length (visited s).

(** ** The download loop and its store ([utils/downloader.py]) *)

Module Downloader.

(** A row of the [images] table of [DB_TEMPLATE]. *)
Record row : Type := {
  id : Z;
  PostUrl : option string;
  ImageUrl : option string;
  Filename : option string;
  Domain : option string;
  PostTitle : option string;
  CommentSectionUrl : option string;
  PostedOn : option string;
  LastHtmlStatusCode : option Z;
  Downloaded : option Z;
  DownloadDate : option string
}.

(** A sqlite file: the rows of its [images] table, if it has that table. *)
Record database : Type := { images : option (list row) }.

(** What [download_files] can act on: the working directory, the
    directories that exist, the sqlite files (each under the name of the
    file it is), the files transferred so far (url and target) and the
    console. *)
Record world : Type := {
  cwd : string;
  directories : list string;
  databases : list (string * database);
  transferred : list (string * string);
  console : list string
}.

Definition action (A : Type) : Type := world -> world * result A.

Definition ret {A : Type} (a : A) : action A := fun w => (w, Ok a).

Definition throw {A : Type} (e : exn) : action A := fun w => (w, Raise e).

Definition seq {A B : Type} (m : action A) (k : A -> action B) : action B :=
  fun w =>
    match m w with
    | (w', Ok a) => k a w'
    | (w', Raise e) => (w', Raise e)
    end.

Notation "x <~ m ;; k" := (seq m (fun x => k))
  (at level 61, m at next level, right associativity).

Fixpoint lookup_db (path : string) (dbs : list (string * database)) : option database :=
  match dbs with
  | [] => None
  | (p, d) :: dbs' => if String.eqb p path then Some d else lookup_db path dbs'
  end.

Fixpoint store_db (path : string) (d : database) (dbs : list (string * database))
    : list (string * database) :=
  match dbs with
  | [] => [(path, d)]
  | (p, d') :: dbs' =>
      if String.eqb p path then (p, d) :: dbs' else (p, d') :: store_db path d dbs'
  end.

Definition set_databases (dbs : list (string * database)) (w : world) : world :=
  {| cwd := cwd w; directories := directories w; databases := dbs;
     transferred := transferred w; console := console w |}.

(** [os.getcwd()] *)
Definition getcwd : action string := fun w => (w, Ok (cwd w)).

(** [os.chdir(d)]: the world knows the directories that exist, and
    treats every other path as missing. *)
Definition chdir (d : string) : action unit :=
  fun w =>
    if existsb (String.eqb d) (directories w) then
      ({| cwd := d; directories := directories w; databases := databases w;
          transferred := transferred w; console := console w |}, Ok tt)
    else (w, Raise FileNotFoundError).

(** What the module takes from outside the two files embedded here: the
    functions imported from [utils.consoleaccessories] and
    [utils.debugtools], and the dealings of [sqlite3] with the file system.
    [database_file path w] is the file that [path] names for
    [sqlite3.connect] in the world [w] (relative paths go by the working
    directory, and two paths can name one file), [None] when that file
    cannot be opened; [script_failure file w] is the exception with which
    [executescript] ends on that file, if it does not run through. The
    stores of a world are kept by the file they are. *)
Record imports : Type := {
  clean_path : string -> string;
  is_valid_path : string -> world -> bool;
  count_downloadable_images : list post -> nat;
  database_file : string -> world -> option string;
  script_failure : string -> world -> option exn
}.

(** [make_connection(path)], that is [sqlite3.connect(path)]: an
    [OperationalError] when the file cannot be opened; a file that does not
    exist yet is created without tables. The connection is known by its
    file. *)
Definition make_connection (u : imports) (path : string) : action string :=
  fun w =>
    match database_file u path w with
    | None => (w, Raise OperationalError)
    | Some file =>
        match lookup_db file (databases w) with
        | Some _ => (w, Ok file)
        | None =>
            (set_databases (store_db file {| images := None |} (databases w)) w, Ok file)
        end
    end.

(** [c.executescript(DB_TEMPLATE); conn.commit()]: drop the [images]
    table if there is one, create it empty; a script that fails leaves the
    file as it was. *)
Definition executescript_DB_TEMPLATE (u : imports) (conn : string) : action unit :=
  fun w =>
    match script_failure u conn w with
    | Some e => (w, Raise e)
    | None =>
        (set_databases (store_db conn {| images := Some [] |} (databases w)) w, Ok tt)
    end.

(** [conn.close()] *)
Definition close (conn : string) : action unit := ret tt.

(** Names the module uses without defining or importing them. [path] and
    [display_status] are of that kind: [utils/downloader.py] binds
    neither, so evaluating them is a [NameError]. The model takes their
    bindings as a parameter, to follow the function past those lines too. *)
Record globals : Type := {
  path_binding : option string;
  display_status_binding : option (string -> nat -> nat -> string)
}.

(** A call of a display function: its line goes to the console. *)
Definition display (line : string) : action unit :=
  fun w =>
    ({| cwd := cwd w; directories := directories w; databases := databases w;
        transferred := transferred w; console := console w ++ [line] |}, Ok tt).

(** The bindings [utils/downloader.py] has. *)
Definition module_globals : globals :=
  {| path_binding := None; display_status_binding := None |}.

Definition load_name {A : Type} (name : string) (binding : option A) : action A :=
  match binding with
  | Some v => ret v
  | None => throw (NameError name)
  end.

(** The [while files:] loop: [files.popleft()] takes the records from the
    left until the deque is empty. *)
Fixpoint download_loop (g : globals) (verbose : bool) (total currently_downloading : nat)
    (files : list post) : action unit :=
  match files with
  | [] => ret tt
  | file_obj :: files' =>
      _ <~ (if Str.truthy_opt (image_url (image_of file_obj)) then
              if verbose then
                display_status <~ load_name "display_status" (display_status_binding g) ;;
                match image_url (image_of file_obj) with
                | Some u => display (display_status u currently_downloading total)
                | None => ret tt
                end
              else ret tt
            else ret tt) ;;
      download_loop g verbose total currently_downloading files'
  end.

Definition download_files_in (g : globals) (u : imports) (files : list post)
    (destination : string) (verbose : bool) : action unit :=
  current_directory <~ getcwd ;;
  _ <~ chdir destination ;;
  path <~ load_name "path" (path_binding g) ;;
  let db_path := (clean_path u path ++ "/db.sqlite")%string in
  _ <~ (fun w =>
          if negb (is_valid_path u db_path w) then
            (conn <~ make_connection u db_path ;;
             executescript_DB_TEMPLATE u conn) w
          else ret tt w) ;;
  conn <~ make_connection u db_path ;;
  let total := count_downloadable_images u files in
  let currently_downloading := 1 in
  _ <~ download_loop g verbose total currently_downloading files ;;
  _ <~ close conn ;;
  chdir current_directory.

(** [download_files] as the module defines it. *)
Definition download_files : imports -> list post -> string -> bool -> action unit :=
  download_files_in module_globals.

(** The rows of the store at [db_path] that belong to a post. *)
Definition rows_of (w : world) (db_path : string) (source_url : string) : list row :=
  match lookup_db db_path (databases w) with
  | Some {| images := Some rows |} =>
      List.filter (fun r => match PostUrl r with
                            | Some p => String.eqb p source_url
                            | None => false
                            end) rows
  | _ => []
  end.

(** [isDownloaded]: some row of the post has a non-zero [Downloaded]. *)
Definition marked_downloaded (w : world) (db_path : string) (source_url : string) : bool :=
  existsb (fun r => match Downloaded r with
                    | Some d => negb (Z.eqb d 0)
                    | None => false
                    end) (rows_of w db_path source_url).

End Downloader.

(** ** Specification vocabulary *)

(** [sub] occurs in [s] as a substring. *)
Definition occurs (sub s : string) : Prop :=
  exists a b, s = (a ++ sub ++ b)%string.

(** [x] is the first element of [xs], in list order, that occurs in [s]. *)
Definition first_occurring (xs : list string) (s x : string) : Prop :=
  exists before after,
    xs = before ++ x :: after /\ occurs x s /\
    forall y, In y before -> ~ occurs y s.

(** An occurrence of [lit] in [s] at offset [k], after no line break. *)
Definition occurs_at (lit s : string) (k : nat) : Prop :=
  exists pre rest,
    s = (pre ++ lit ++ rest)%string /\ String.length pre = k /\
    Str.no_newline pre = true.

(** [m] is the prefix of [s] up to and including the last occurrence of
    [lit] that comes after at least one character and after no line break. *)
Definition prefix_through_last (lit s m : string) : Prop :=
  exists pre rest,
    s = (pre ++ lit ++ rest)%string /\ pre <> EmptyString /\
    Str.no_newline pre = true /\ m = (pre ++ lit)%string /\
    forall pre' rest',
      s = (pre' ++ lit ++ rest')%string -> Str.no_newline pre' = true ->
      String.length pre' <= String.length pre.

(** The prefix of [s] up to and including the first occurrence of [lit],
    as the specification words the file name rule. *)
Fixpoint prefix_through_first (lit s : string) : option string :=
  if prefix lit s then Some lit
  else match s with
       | EmptyString => None
       | String c s' => option_map (String c) (prefix_through_first lit s')
       end.

(** A run from [w] to [w'] transferred nothing and wrote no row: in every
    store the rows of every post are as before, or gone with a table that
    was created anew. *)
Definition nothing_downloaded (w w' : Downloader.world) : Prop :=
  Downloader.transferred w' = Downloader.transferred w /\
  forall db_path source_url,
    Downloader.rows_of w' db_path source_url = Downloader.rows_of w db_path source_url \/
    Downloader.rows_of w' db_path source_url = [].

(** An action that transfers nothing and writes no row, wherever it runs. *)
Definition quiet {A : Type} (m : Downloader.action A) : Prop :=
  forall w, nothing_downloaded w (fst (m w)).

(** ** Sample documents

    Listing pages in the shape old reddit serves them, used to run the
    extraction on concrete input. *)

Module Sample.

Definition title_p (href : string) : node :=
  Tag "p" [("class", "title")]
    [Tag "a" [("class", "title may-blank"); ("href", href)]
       [NavigableString "A post"];
     Tag "span" [("class", "domain")]
       [NavigableString "(";
        Tag "a" [("href", "/domain/example/")] [NavigableString "example"];
        NavigableString ")"]].

Definition title_p_without_domain (href : string) : node :=
  Tag "p" [("class", "title")]
    [Tag "a" [("class", "title may-blank"); ("href", href)]
       [NavigableString "A post"]].

Definition tagline : node :=
  Tag "p" [("class", "tagline")]
    [NavigableString "submitted ";
     Tag "time" [("datetime", "2017-05-01T10:00:00+00:00")]
       [NavigableString "1 hour ago"]].

Definition tagline_without_time : node :=
  Tag "p" [("class", "tagline")] [NavigableString "submitted"].

Definition tagline_without_datetime : node :=
  Tag "p" [("class", "tagline")]
    [NavigableString "submitted ";
     Tag "time" [("title", "Mon May 1")] [NavigableString "1 hour ago"]].

Definition buttons (comments : string) : node :=
  Tag "ul" [("class", "flat-list buttons")]
    [Tag "li" [("class", "first")]
       [Tag "a" [("href", comments)] [NavigableString "12 comments"]]].

Definition buttons_without_comments : node :=
  Tag "ul" [("class", "flat-list buttons")]
    [Tag "li" [("class", "share")] [NavigableString "share"]].

Definition thing (contents : list node) : node :=
  Tag "div" [("class", " thing id-t3_6abcde odd link ")] contents.

(** a well-formed post container *)
Definition good_thing (href : string) : node :=
  thing [title_p href; tagline; buttons "/r/pics/comments/6abcde/a_post/"].

(** a post container without its comments link *)
Definition thing_without_comments (href : string) : node :=
  thing [title_p href; tagline; buttons_without_comments].

(** post containers without one of the optional elements *)
Definition thing_without_time (href : string) : node :=
  thing [title_p href; tagline_without_time;
         buttons "/r/pics/comments/6abcde/a_post/"].

Definition thing_without_datetime (href : string) : node :=
  thing [title_p href; tagline_without_datetime;
         buttons "/r/pics/comments/6abcde/a_post/"].

Definition thing_without_domain (href : string) : node :=
  thing [title_p_without_domain href; tagline;
         buttons "/r/pics/comments/6abcde/a_post/"].

Definition next_button (href : string) : node :=
  Tag "span" [("class", "next-button")]
    [Tag "a" [("href", href); ("rel", "nofollow next")] [NavigableString "next"]].

Definition document (body : list node) : node :=
  Tag "[document]" [] [Tag "html" [] [Tag "body" [] body]].

(** a web where every request fails *)
Definition offline : Web :=
  {| urlopen_soup := fun _ => Raise (URLError "unreachable");
     rendered := fun _ _ => Raise WebDriverException |}.

(** a gfycat page whose [source] element has no [src] *)
Definition gfycat_page_without_src : node :=
  document [Tag "video" [] [Tag "source" [("id", "webmSource"); ("type", "video/webm")] []]].

Definition gfycat_page (src : string) : node :=
  document [Tag "video" [] [Tag "source" [("id", "webmSource"); ("src", src)] []]].

(** a web that serves one document for every plain request and one
    listing page for every rendered one *)
Definition serving (plain listing : node) : Web :=
  {| urlopen_soup := fun _ => Ok plain;
     rendered := fun _ _ => Ok listing |}.

(** a crawled record with a resolved media URL *)
Definition resolved_post : post :=
  {| url := "https://www.reddit.com/r/pics/comments/6abcde/a_post/";
     image_of := image_dictionary (Some "https://i.redd.it/one.png") (Some "one.png");
     domain := Some "i.redd.it";
     post_title := Some "A post";
     posted_on := Some "2017-05-01T10:00:00+00:00";
     link_to_comments := "/r/pics/comments/6abcde/a_post/";
     on_page := Some "https://www.reddit.com/r/pics/";
     html_status_token := 0 |}.

(** a machine with an empty destination directory *)
Definition fresh_world : Downloader.world :=
  {| Downloader.cwd := "/home/user";
     Downloader.directories := ["/home/user"; "/home/user/pics"];
     Downloader.databases := [];
     Downloader.transferred := [];
     Downloader.console := [] |}.

(** stand-ins for what the module imports: paths are kept as they are, a
    path is valid when a store exists there, the downloadable records are
    those with a resolved media URL; a store file is named by its absolute
    path and can be opened when it lies in a directory that exists, and the
    template always runs through *)
Definition helpers : Downloader.imports :=
  {| Downloader.clean_path := fun p => p;
     Downloader.is_valid_path := fun p w =>
       match Downloader.lookup_db p (Downloader.databases w) with
       | Some _ => true
       | None => false
       end;
     Downloader.count_downloadable_images := fun files =>
       List.length (List.filter (fun f => Str.truthy_opt (image_url (image_of f))) files);
     Downloader.database_file := fun p w =>
       if existsb (fun d => String.eqb p (d ++ "/db.sqlite")) (Downloader.directories w)
       then Some p else None;
     Downloader.script_failure := fun _ _ => None |}.

(** the module with its two unbound names bound: [path] to the
    destination, [display_status] to a one-line report *)
Definition repaired_globals : Downloader.globals :=
  {| Downloader.path_binding := Some "/home/user/pics";
     Downloader.display_status_binding := Some (fun u _ _ => u) |}.

(** a listing with a well-formed post and one without comments link *)
Definition page_with_malformed_post : node :=
  document [good_thing "https://i.redd.it/one.png";
            thing_without_comments "https://i.redd.it/two.png";
            good_thing "https://i.redd.it/three.png"].

Definition page_of_good_posts : node :=
  document [good_thing "https://i.redd.it/one.png";
            good_thing "https://i.redd.it/three.png"].


(** a listing that always links to a next page *)
Definition page_with_next : node :=
  document [good_thing "https://i.redd.it/one.png";
            next_button "https://www.reddit.com/r/pics/?count=25&after=t3_6abcde"].

Definition last_page : node :=
  document [good_thing "https://i.redd.it/nine.png"].

End Sample.

(** ** Further vocabulary *)

(** A web on which the crawl never runs dry: whatever was loaded before,
    every page renders, is extracted without exception and links to a next
    page with a non-empty URL. *)
Definition endless (web : Web) : Prop :=
  forall history u,
    exists soup pictures next,
      rendered web history u = Ok soup /\
      get_files_from_a_page web soup (Some u) = Ok (pictures, Some next) /\
      Str.truthy next = true.

(** [file_obj['image']['image_url']] is truthy. *)
Definition downloadable (file_obj : post) : bool :=
  Str.truthy_opt (image_url (image_of file_obj)).

(** The media URLs of the downloadable records of a queue, in order. *)
Fixpoint media_urls (files : list post) : list string :=
  match files with
  | [] => []
  | file_obj :: files' =>
      match image_url (image_of file_obj) with
      | Some u => if Str.truthy u then u :: media_urls files' else media_urls files'
      | None => media_urls files'
      end
  end.

(** The module with [path] bound and [display_status] left unbound. *)
Definition path_only_globals (path : string) : Downloader.globals :=
  {| Downloader.path_binding := Some path;
     Downloader.display_status_binding := None |}.

(** The module with both names bound. *)
Definition bound_globals (path : string) (display_status : string -> nat -> nat -> string)
    : Downloader.globals :=
  {| Downloader.path_binding := Some path;
     Downloader.display_status_binding := Some display_status |}.

(** a crawled record whose media could not be resolved *)
Definition unresolved_post : post :=
  {| url := "https://www.reddit.com/r/pics/comments/6fffff/a_text_post/";
     image_of := image_dictionary None None;
     domain := Some "self.pics";
     post_title := Some "A text post";
     posted_on := None;
     link_to_comments := "/r/pics/comments/6fffff/a_text_post/";
     on_page := Some "https://www.reddit.com/r/pics/";
     html_status_token := 0 |}.

(** a destination whose store already holds a downloaded row *)
Definition stored_row : Downloader.row :=
  {| Downloader.id := 1;
     Downloader.PostUrl := Some "https://www.reddit.com/r/pics/comments/6abcde/a_post/";
     Downloader.ImageUrl := Some "https://i.redd.it/one.png";
     Downloader.Filename := Some "one.png";
     Downloader.Domain := Some "i.redd.it";
     Downloader.PostTitle := Some "A post";
     Downloader.CommentSectionUrl := Some "/r/pics/comments/6abcde/a_post/";
     Downloader.PostedOn := Some "2017-05-01T10:00:00+00:00";
     Downloader.LastHtmlStatusCode := Some 200%Z;
     Downloader.Downloaded := Some 1%Z;
     Downloader.DownloadDate := Some "2017-05-02" |}.

Definition used_world : Downloader.world :=
  {| Downloader.cwd := "/home/user";
     Downloader.directories := ["/home/user"; "/home/user/pics"];
     Downloader.databases :=
       [("/home/user/pics/db.sqlite", {| Downloader.images := Some [stored_row] |})];
     Downloader.transferred := [];
     Downloader.console := [] |}.

(** Lines 50 to 57 of [download_files]: the store is created from the
    template unless its path is valid, then the connection for the loop is
    opened. *)
Definition open_store (u : Downloader.imports) (db_path : string)
    : Downloader.action string :=
  Downloader.seq
    (fun w =>
       if negb (Downloader.is_valid_path u db_path w) then
         Downloader.seq (Downloader.make_connection u db_path)
           (fun conn => Downloader.executescript_DB_TEMPLATE u conn) w
       else Downloader.ret tt w)
    (fun _ => Downloader.make_connection u db_path).

(** stand-ins like [Sample.helpers], with a path check that always says
    no *)
Definition distrustful_helpers : Downloader.imports :=
  {| Downloader.clean_path := Downloader.clean_path Sample.helpers;
     Downloader.is_valid_path := fun _ _ => false;
     Downloader.count_downloadable_images :=
       Downloader.count_downloadable_images Sample.helpers;
     Downloader.database_file := Downloader.database_file Sample.helpers;
     Downloader.script_failure := Downloader.script_failure Sample.helpers |}.

(** * Properties *)

(** ** Strings *)

Lemma prefix_iff (p s : string) :
  prefix p s = true <-> exists r, s = (p ++ r)%string.
Proof.
  revert s; induction p as [|c p IH]; intros s.
  - split; [intros _; now exists s | intros _; now destruct s].
  - destruct s as [|d s]; simpl.
    + split; [discriminate | intros [r H]; discriminate].
    + destruct (ascii_dec c d) as [->|Hne].
      * rewrite IH. split; intros [r H]; exists r; [now rewrite H | now inversion H].
      * split; [discriminate | intros [r H]; inversion H; congruence].
Qed.

Lemma contains_iff (sub s : string) :
  Str.contains sub s = true <-> occurs sub s.
Proof.
  unfold occurs. induction s as [|c s IH]; cbn [Str.contains].
  - rewrite orb_false_r, prefix_iff. split.
    + intros [r H]. now exists EmptyString, r.
    + intros [a [b H]]. destruct a; simpl in H; [now exists b | discriminate].
  - rewrite orb_true_iff, prefix_iff, IH. split.
    + intros [[r H] | [a [b H]]].
      * now exists EmptyString, r.
      * exists (String c a), b. simpl. now rewrite H.
    + intros [a [b H]]. destruct a as [|d a]; simpl in H.
      * left. now exists b.
      * right. exists a, b. now inversion H.
Qed.

Lemma contains_false_iff (sub s : string) :
  Str.contains sub s = false <-> ~ occurs sub s.
Proof.
  rewrite <- contains_iff. destruct (Str.contains sub s); split; congruence.
Qed.

Lemma first_contained_Some (xs : list string) (s x : string) :
  first_contained xs s = Some x <-> first_occurring xs s x.
Proof.
  unfold first_occurring. induction xs as [|y xs IH]; simpl.
  - split; [discriminate | intros [[|? ?] [after [H _]]]; discriminate].
  - destruct (Str.contains y s) eqn:Hy.
    + split.
      * intros [= <-]. exists [], xs. repeat split; [now apply contains_iff | intros ? []].
      * intros [before [after [Hxs [Hocc Hno]]]]. destruct before as [|z before].
        -- now inversion Hxs.
        -- inversion Hxs; subst z. exfalso. apply (Hno y); [now left | now apply contains_iff].
    + rewrite IH. split.
      * intros [before [after [Hxs [Hocc Hno]]]]. exists (y :: before), after.
        repeat split; [now rewrite Hxs | assumption |].
        intros z [<-|Hz]; [now apply contains_false_iff | now apply Hno].
      * intros [before [after [Hxs [Hocc Hno]]]]. destruct before as [|z before].
        -- inversion Hxs; subst y. apply contains_iff in Hocc. congruence.
        -- inversion Hxs; subst. exists before, after.
           repeat split; [assumption |]. intros w Hw. apply Hno. now right.
Qed.

Lemma first_contained_None (xs : list string) (s : string) :
  first_contained xs s = None <-> forall x, In x xs -> ~ occurs x s.
Proof.
  induction xs as [|y xs IH]; simpl.
  - split; [intros _ ? [] | reflexivity].
  - destruct (Str.contains y s) eqn:Hy.
    + split; [discriminate |]. intros H. exfalso. apply (H y); [now left | now apply contains_iff].
    + rewrite IH. split.
      * intros H x [<-|Hx]; [now apply contains_false_iff | now apply H].
      * intros H x Hx. apply H. now right.
Qed.

(** ** Domain classification *)

(** C10. For every URL, [known_domain] returns the first element of the
    list reddit, imgur, gfycat, tumblr, blogspot (in that order) that occurs
    as a substring anywhere in the URL, and [None] exactly when none of them
    occurs; the host part plays no role. *)
Theorem known_domain_first_substring (url : string) :
  DOMAINS = ["reddit"; "imgur"; "gfycat"; "tumblr"; "blogspot"] /\
  (forall d, known_domain url = Some d <-> first_occurring DOMAINS url d) /\
  (known_domain url = None <-> forall d, In d DOMAINS -> ~ occurs d url).
Proof.
  split; [reflexivity | split].
  - intros d. apply first_contained_Some.
  - apply first_contained_None.
Qed.

(** A listed name in the path or in the query classifies the URL, whatever
    its host is; with several names present the list order decides. *)
Example known_domain_outside_host :
  known_domain "http://example.com/gallery/imgur-mirror/1" = Some "imgur" /\
  known_domain "http://example.com/view?from=tumblr" = Some "tumblr" /\
  known_domain "https://i.imgur.com/why-reddit.png" = Some "reddit" /\
  known_domain "http://example.com/cats" = None.
Proof. repeat split. Qed.

(** ** File names *)

Lemma no_newline_app (a b : string) :
  Str.no_newline (a ++ b)%string = Str.no_newline a && Str.no_newline b.
Proof.
  induction a as [|c a IH]; simpl; [reflexivity|].
  now rewrite IH, andb_assoc.
Qed.

Lemma take_app_length (a b : string) :
  Str.take (String.length a) (a ++ b)%string = a.
Proof. induction a as [|c a IH]; simpl; [now destruct b | now rewrite IH]. Qed.

Lemma append_assoc (a b c : string) :
  ((a ++ b) ++ c = a ++ (b ++ c))%string.
Proof. induction a as [|x a IH]; simpl; [reflexivity | now rewrite IH]. Qed.

Lemma length_append (a b : string) :
  String.length (a ++ b)%string = String.length a + String.length b.
Proof. induction a as [|x a IH]; simpl; [reflexivity | now rewrite IH]. Qed.

Lemma occurs_at_zero (lit s : string) :
  occurs_at lit s 0 <-> prefix lit s = true.
Proof.
  rewrite prefix_iff. unfold occurs_at. split.
  - intros [pre [rest [H [Hl _]]]]. destruct pre; [|discriminate]. now exists rest.
  - intros [r H]. now exists EmptyString, r.
Qed.

Lemma occurs_at_succ (lit : string) (c : ascii) (s : string) (k : nat) :
  occurs_at lit (String c s) (S k) <->
  Str.is_newline c = false /\ occurs_at lit s k.
Proof.
  unfold occurs_at. split.
  - intros [pre [rest [H [Hl Hn]]]]. destruct pre as [|d pre]; [discriminate|].
    simpl in *. inversion H; subst d. apply andb_true_iff in Hn as [Hc Hn].
    split; [now destruct (Str.is_newline c) |].
    exists pre, rest. repeat split; [congruence | assumption].
  - intros [Hc [pre [rest [H [Hl Hn]]]]]. exists (String c pre), rest.
    simpl. rewrite Hc, Hn, H, Hl. now repeat split.
Qed.

(** [last_offset] finds the greatest offset of an occurrence that follows
    no line break, and finds one whenever there is one. *)
Lemma last_offset_spec (lit s : string) :
  match Re.last_offset lit s with
  | Some k => occurs_at lit s k /\ forall k', occurs_at lit s k' -> k' <= k
  | None => forall k, ~ occurs_at lit s k
  end.
Proof.
  induction s as [|c s IH]; cbn [Re.last_offset].
  - destruct (prefix lit EmptyString) eqn:Hp.
    + split; [now apply occurs_at_zero |].
      intros k' [pre [rest [H [Hl _]]]]. destruct pre; simpl in *; [lia | discriminate].
    + intros k [pre [rest [H [Hl Hn]]]]. destruct pre; [|discriminate].
      assert (occurs_at lit EmptyString 0) as H0
        by (exists EmptyString, rest; now repeat split).
      apply occurs_at_zero in H0. congruence.
  - destruct (Str.is_newline c) eqn:Hc.
    + destruct (prefix lit (String c s)) eqn:Hp.
      * split; [now apply occurs_at_zero |].
        intros [|k'] H'; [lia |]. apply occurs_at_succ in H' as [H' _]. congruence.
      * intros [|k] H.
        -- apply occurs_at_zero in H. congruence.
        -- apply occurs_at_succ in H as [H _]. congruence.
    + destruct (Re.last_offset lit s) as [j|].
      * destruct IH as [Hat Hmax]. split; [now apply occurs_at_succ |].
        intros [|k'] H'; [lia |]. apply occurs_at_succ in H' as [_ H'].
        apply Hmax in H'. lia.
      * destruct (prefix lit (String c s)) eqn:Hp.
        -- split; [now apply occurs_at_zero |].
           intros [|k'] H'; [lia |]. apply occurs_at_succ in H' as [_ H'].
           now apply IH in H'.
        -- intros [|k] H.
           ++ apply occurs_at_zero in H. congruence.
           ++ apply occurs_at_succ in H as [_ H]. now apply IH in H.
Qed.

Lemma last_offset_Some (lit s : string) (k : nat) :
  Re.last_offset lit s = Some k <->
  occurs_at lit s k /\ forall k', occurs_at lit s k' -> k' <= k.
Proof.
  pose proof (last_offset_spec lit s) as H.
  destruct (Re.last_offset lit s) as [j|].
  - destruct H as [Hat Hmax]. split.
    + now intros [= <-].
    + intros [Hk Hbig]. f_equal. apply Hbig in Hat. apply Hmax in Hk. lia.
  - split; [discriminate |]. intros [Hk _]. now apply H in Hk.
Qed.

(** [re.match] of [.+] followed by the literal returns the prefix through
    the last admissible occurrence of the literal, when there is one. *)
Lemma match_dotplus_iff (lit s m : string) :
  Re.match_dotplus lit s = Some m <-> prefix_through_last lit s m.
Proof.
  unfold Re.match_dotplus, prefix_through_last.
  pose proof (last_offset_spec lit s) as H.
  destruct (Re.last_offset lit s) as [[|k]|].
  - destruct H as [_ Hmax]. split; [discriminate |].
    intros [pre [rest [Hs [Hne [Hn _]]]]]. exfalso.
    assert (occurs_at lit s (String.length pre)) as Hat by (exists pre, rest; now repeat split).
    apply Hmax in Hat. destruct pre; [congruence | simpl in Hat; lia].
  - destruct H as [[pre [rest [Hs [Hl Hn]]]] Hmax].
    assert (Str.take (S k + String.length lit) s = (pre ++ lit)%string) as Htake.
    { rewrite Hs, <- Hl, <- length_append, <- append_assoc. apply take_app_length. }
    rewrite Htake. split.
    + intros [= <-]. exists pre, rest. repeat split; try assumption.
      * destruct pre; [discriminate | congruence].
      * intros pre' rest' Hs' Hn'. rewrite Hl. apply Hmax.
        exists pre', rest'. now repeat split.
    + intros [pre' [rest' [Hs' [Hne' [Hn' [Hm Hbig]]]]]].
      assert (String.length pre' = String.length pre) as Hlen.
      { apply Nat.le_antisymm.
        - rewrite Hl. apply Hmax. exists pre', rest'. now repeat split.
        - now apply (Hbig pre rest). }
      assert (pre' = pre) as ->.
      { rewrite <- (take_app_length pre' (lit ++ rest')), <- Hs', Hlen, Hs.
        apply take_app_length. }
      now subst m.
  - split; [discriminate |]. intros [pre [rest [Hs [_ [Hn _]]]]].
    exfalso. apply (H (String.length pre)). exists pre, rest. now repeat split.
Qed.

Lemma split_shape (sep : ascii) (s : string) :
  (Str.no_char sep s = true /\ Str.split sep s = [s]) \/
  (exists pre c l,
     s = (pre ++ String sep c)%string /\ Str.no_char sep c = true /\
     Str.split sep s = l ++ [c] /\ l <> []).
Proof.
  induction s as [|x s IH]; [now left |].
  cbn [Str.split Str.no_char]. destruct (Ascii.eqb x sep) eqn:Hx.
  - apply Ascii.eqb_eq in Hx; subst x. right.
    destruct IH as [[Hno Hsp] | [pre [c [l [Hs [Hno [Hsp Hl]]]]]]].
    + exists EmptyString, s, [EmptyString]. rewrite Hsp. now repeat split.
    + exists (String sep pre), c, (EmptyString :: l). rewrite Hsp, Hs.
      now repeat split.
  - destruct IH as [[Hno Hsp] | [pre [c [l [Hs [Hno [Hsp Hl]]]]]]].
    + left. now rewrite Hsp, Hno.
    + right. destruct l as [|h t]; [congruence |].
      exists (String x pre), c, (String x h :: t). rewrite Hsp, Hs.
      now repeat split.
Qed.

(** [url.split('/')[-1]] is the text after the last slash, the whole URL
    when it has no slash. *)
Lemma last_segment_spec (url : string) :
  Str.no_char "/" (last_segment url) = true /\
  (url = last_segment url \/
   exists pre, url = (pre ++ "/" ++ last_segment url)%string).
Proof.
  unfold last_segment.
  destruct (split_shape "/" url) as [[Hno Hsp] | [pre [c [l [Hs [Hno [Hsp Hl]]]]]]].
  - rewrite Hsp. simpl. split; [assumption | now left].
  - rewrite Hsp, last_last. split; [assumption |]. right. now exists pre.
Qed.

Lemma get_image_filename_iff (url f : string) :
  get_image_filename url = Ok f <->
  exists ext,
    first_occurring FILE_FORMATS url ext /\
    prefix_through_last ext (last_segment url) f.
Proof.
  unfold get_image_filename, known_file_format.
  destruct (first_contained FILE_FORMATS url) as [ext|] eqn:Hext; simpl.
  - split.
    + intros H. exists ext. split; [now apply first_contained_Some |].
      apply match_dotplus_iff.
      destruct (Re.match_dotplus ext (last_segment url)); simpl in H; congruence.
    + intros [ext' [Hfirst Hpre]]. apply first_contained_Some in Hfirst.
      assert (ext' = ext) as -> by congruence.
      apply match_dotplus_iff in Hpre. now rewrite Hpre.
  - split; [discriminate |]. intros [ext' [Hfirst _]].
    apply first_contained_Some in Hfirst. congruence.
Qed.

(** C5 (as amended). [get_image_filename] returns a file name exactly when
    the first known extension of the list that occurs in the URL also occurs
    in the final path segment after at least one character and no line
    break; the name is then the prefix of that segment up to and including
    the LAST such occurrence of the extension. For a URL containing no known
    extension [known_file_format] returns [None]. *)
Theorem get_image_filename_greedy (url : string) :
  FILE_FORMATS = [".jpg"; ".jpeg"; ".png"; ".gif"; ".webm"] /\
  (forall f,
     get_image_filename url = Ok f <->
     exists ext,
       first_occurring FILE_FORMATS url ext /\
       prefix_through_last ext (last_segment url) f) /\
  (known_file_format url = None <->
   forall ext, In ext FILE_FORMATS -> ~ occurs ext url).
Proof.
  split; [reflexivity | split].
  - intros f. apply get_image_filename_iff.
  - apply first_contained_None.
Qed.

(** C5, counterexample. With the extension twice in the final segment the
    name runs to the last occurrence, not the first; with the extension
    only outside the final segment, or with no known extension at all, the
    function raises instead of returning. *)
Lemma get_image_filename_not_first_match :
  known_file_format "http://host/a.jpg.jpg" = Some ".jpg" /\
  prefix_through_first ".jpg" (last_segment "http://host/a.jpg.jpg") = Some "a.jpg" /\
  get_image_filename "http://host/a.jpg.jpg" = Ok "a.jpg.jpg" /\
  known_file_format "http://pics.jpg.example.org/view" = Some ".jpg" /\
  get_image_filename "http://pics.jpg.example.org/view" = Raise AttributeError /\
  known_file_format "http://host/clip.mp4" = None /\
  get_image_filename "http://host/clip.mp4" = Raise TypeError.
Proof. repeat split. Qed.

Example get_image_filename_samples :
  get_image_filename "https://i.redd.it/abc123.png" = Ok "abc123.png" /\
  get_image_filename "https://i.imgur.com/xYz.jpeg?1" = Ok "xYz.jpeg" /\
  get_image_filename "https://giant.gfycat.com/Cat.webm" = Ok "Cat.webm".
Proof. repeat split. Qed.

(** ** The pagination loop *)

Lemma make_beautiful_soup_visited (web : Web) (u : string) (s : session) :
  visited (fst (make_beautiful_soup web (Some u) s)) = visited s ++ [u].
Proof. reflexivity. Qed.

Lemma make_beautiful_soup_fetches_at_most_one (web : Web) (url : option string) (s : session) :
  pages_fetched (fst (make_beautiful_soup web url s)) <= S (pages_fetched s).
Proof.
  unfold pages_fetched. destruct url as [u|]; simpl; [|lia].
  rewrite length_app. simpl. lia.
Qed.

(** With a positive bound, the loop fetches at most one page for each value
    of [page] from its current one up to [pages]. *)
Lemma crawl_loop_fetch_bound (fuel : nat) (web : Web) (pages : Z) :
  (0 < pages)%Z ->
  forall url page crawl images s,
    pages_fetched (fst (crawl_loop fuel web pages url page crawl images s))
    <= pages_fetched s + Z.to_nat (pages + 1 - page).
Proof.
  intros Hpos. induction fuel as [|fuel IH]; intros url page crawl images s.
  - simpl. destruct ((page <=? pages)%Z && crawl); simpl; unfold pages_fetched; simpl; lia.
  - cbn [crawl_loop]. destruct ((page <=? pages)%Z && crawl) eqn:Hcond.
    2:{ unfold pages_fetched; simpl; lia. }
    apply andb_true_iff in Hcond as [Hle _]. apply Z.leb_le in Hle.
    pose proof (make_beautiful_soup_fetches_at_most_one web url s) as Hone.
    destruct (make_beautiful_soup web url s) as [s1 [soup|e]]; simpl in Hone.
    2:{ simpl. lia. }
    destruct (get_files_from_a_page web soup url) as [[pictures next_page]|e].
    2:{ simpl. lia. }
    assert (truthy_int pages = true) as ->
      by (unfold truthy_int; apply negb_true_iff, Z.eqb_neq; lia).
    etransitivity; [apply IH |]. unfold pages_fetched in *. simpl. lia.
Qed.

(** With a positive bound, [pages + 1 - page] iterations are enough for the
    loop to finish. *)
Lemma crawl_loop_finishes (fuel : nat) (web : Web) (pages : Z) :
  (0 < pages)%Z ->
  forall url page crawl images s,
    Z.to_nat (pages + 1 - page) <= fuel ->
    snd (crawl_loop fuel web pages url page crawl images s) <> None.
Proof.
  intros Hpos. induction fuel as [|fuel IH]; intros url page crawl images s Hfuel.
  - simpl. destruct ((page <=? pages)%Z && crawl) eqn:Hcond; [|discriminate].
    apply andb_true_iff in Hcond as [Hle _]. apply Z.leb_le in Hle. lia.
  - cbn [crawl_loop]. destruct ((page <=? pages)%Z && crawl) eqn:Hcond; [|discriminate].
    apply andb_true_iff in Hcond as [Hle _]. apply Z.leb_le in Hle.
    destruct (make_beautiful_soup web url s) as [s1 [soup|e]]; [|discriminate].
    destruct (get_files_from_a_page web soup url) as [[pictures next_page]|e]; [|discriminate].
    assert (truthy_int pages = true) as ->
      by (unfold truthy_int; apply negb_true_iff, Z.eqb_neq; lia).
    apply IH. lia.
Qed.

(** C3. For every start URL and every bound [N > 0], [get_all_posts] with
    [pages = N] fetches at most [N] listing pages, whatever the pages link
    to, and its loop finishes within [N] iterations. *)
Theorem get_all_posts_page_bound (web : Web) (url : string) (N : Z) (fuel : nat) :
  (0 < N)%Z ->
  (Z.of_nat (pages_fetched (fst (get_all_posts fuel web url N))) <= N)%Z /\
  (Z.to_nat N <= fuel -> snd (get_all_posts fuel web url N) <> None).
Proof.
  intros Hpos. unfold get_all_posts.
  assert (truthy_int N = true) as ->
    by (unfold truthy_int; apply negb_true_iff, Z.eqb_neq; lia).
  split.
  - pose proof (crawl_loop_fetch_bound fuel web N Hpos (Some url) 1%Z true [] new_session) as H.
    unfold pages_fetched at 2 in H. simpl in H. lia.
  - intros Hfuel. apply crawl_loop_finishes; [assumption | lia].
Qed.

(** Every listing page links to a next one, and two pages are asked for. *)
Lemma get_all_posts_page_bound_witness :
  (Z.of_nat (pages_fetched (fst (get_all_posts 5
      (Sample.serving Sample.last_page Sample.page_with_next)
      "https://www.reddit.com/r/pics/" 2))) <= 2)%Z /\
  snd (get_all_posts 5 (Sample.serving Sample.last_page Sample.page_with_next)
         "https://www.reddit.com/r/pics/" 2) <> None.
Proof.
  destruct (get_all_posts_page_bound
              (Sample.serving Sample.last_page Sample.page_with_next)
              "https://www.reddit.com/r/pics/" 2 5) as [Hbound Hfin].
  - lia.
  - split; [exact Hbound | apply Hfin; simpl; lia].
Defined.

Example get_all_posts_two_of_many :
  visited (fst (get_all_posts 5 (Sample.serving Sample.last_page Sample.page_with_next)
                  "https://www.reddit.com/r/pics/" 2))
  = ["https://www.reddit.com/r/pics/";
     "https://www.reddit.com/r/pics/?count=25&after=t3_6abcde"].
Proof. reflexivity. Qed.





(** ** Media link resolution *)

Lemma parse_gfycat_ok_iff (web : Web) (url : string) :
  is_ok (parse_gfycat web url) = true <->
  exists soup,
    urlopen_soup web url = Ok soup /\
    (Soup.find "source" (Soup.id_is "webmSource") soup = None \/
     exists source src,
       Soup.find "source" (Soup.id_is "webmSource") soup = Some source /\
       Soup.getitem (Some source) "src" = Ok src).
Proof.
  unfold parse_gfycat, make_soup, bind.
  destruct (urlopen_soup web url) as [soup|e].
  - destruct (Soup.find "source" (Soup.id_is "webmSource") soup) as [source|] eqn:Hfind.
    + destruct (Soup.getitem (Some source) "src") as [src|e] eqn:Hsrc; cbn [is_ok].
      * split; [intros _ | reflexivity]. exists soup. split; [reflexivity |].
        right. exists source, src. now rewrite Hfind.
      * split; [discriminate |]. intros [soup' [Hs [H | [t [src [H1 H2]]]]]];
          injection Hs as <-; rewrite Hfind in *.
        -- discriminate.
        -- injection H1 as <-. congruence.
    + simpl. split; [intros _ | reflexivity]. exists soup. split; [reflexivity |].
      left. assumption.
  - simpl. split; [discriminate |]. intros [soup [H _]]. discriminate.
Qed.

Lemma find_first {A : Type} (f : A -> bool) (l : list A) (x : A) :
  List.find f l = Some x ->
  f x = true /\
  exists before after, l = before ++ x :: after /\ forall y, In y before -> f y = false.
Proof.
  induction l as [|a l IH]; simpl; [discriminate |].
  destruct (f a) eqn:Ha.
  - intros [= <-]. split; [assumption |]. exists [], l. split; [reflexivity | intros ? []].
  - intros H. destruct (IH H) as [Hx [before [after [-> Hnone]]]].
    split; [assumption |]. exists (a :: before), after. split; [reflexivity |].
    intros y [<- | Hy]; [assumption | now apply Hnone].
Qed.

(** What [soup.find('source', attrs={'id': 'webmSource'})] finds is a
    [source] tag with that id, and no descendant before it in document
    order is one. *)
Lemma find_webm_source (soup found : node) :
  Soup.find "source" (Soup.id_is "webmSource") soup = Some found ->
  (exists attrs contents,
     found = Tag "source" attrs contents /\ Soup.get_attr "id" attrs = Some "webmSource") /\
  exists before after,
    Soup.descendants soup = before ++ found :: after /\
    forall n, In n before -> Soup.matches "source" (Soup.id_is "webmSource") n = false.
Proof.
  intros H. apply find_first in H as [Hm Hfirst]. split; [| exact Hfirst].
  destruct found as [text | name attrs contents]; simpl in Hm; [discriminate |].
  apply andb_true_iff in Hm as [Hname Hid]. apply String.eqb_eq in Hname. subst name.
  exists attrs, contents. split; [reflexivity |]. unfold Soup.id_is in Hid.
  destruct (Soup.get_attr "id" attrs) as [i|]; [| discriminate].
  apply String.eqb_eq in Hid. now subst i.
Qed.

(** C6 (as amended). For every URL and every domain tag other than gfycat,
    in particular for every tag outside the known set, the resolver returns
    [None] and does not raise. For gfycat it requests the page and raises
    what the request raises; on a page without [source] element of id
    [webmSource] it returns [None]; otherwise it takes the first such
    element in document order, returns its [src] when it has one and raises
    [KeyError] when it has none. So the gfycat branch returns exactly when the
    request succeeds and the page has no such element or one with a
    [src]. *)
Theorem resolver_silent_outside_gfycat (web : Web) (url : string) (domain : option string) :
  (domain <> Some "gfycat" ->
     get_image_link_from_allowed_domain web url domain = Ok None) /\
  ((forall d, domain = Some d -> ~ In d DOMAINS) ->
     get_image_link_from_allowed_domain web url domain = Ok None) /\
  (domain = Some "gfycat" ->
     get_image_link_from_allowed_domain web url domain = parse_gfycat web url) /\
  (forall e, urlopen_soup web url = Raise e ->
     get_image_link_from_allowed_domain web url (Some "gfycat") = Raise e) /\
  (forall soup,
     urlopen_soup web url = Ok soup ->
     Soup.find "source" (Soup.id_is "webmSource") soup = None ->
     get_image_link_from_allowed_domain web url (Some "gfycat") = Ok None) /\
  (forall soup found,
     urlopen_soup web url = Ok soup ->
     Soup.find "source" (Soup.id_is "webmSource") soup = Some found ->
     exists attrs contents before after,
       found = Tag "source" attrs contents /\
       Soup.get_attr "id" attrs = Some "webmSource" /\
       Soup.descendants soup = before ++ found :: after /\
       (forall n, In n before ->
          Soup.matches "source" (Soup.id_is "webmSource") n = false) /\
       get_image_link_from_allowed_domain web url (Some "gfycat")
       = match Soup.get_attr "src" attrs with
         | Some src => Ok (Some src)
         | None => Raise (KeyError "src")
         end) /\
  (is_ok (parse_gfycat web url) = true <->
   exists soup,
     urlopen_soup web url = Ok soup /\
     (Soup.find "source" (Soup.id_is "webmSource") soup = None \/
      exists source src,
        Soup.find "source" (Soup.id_is "webmSource") soup = Some source /\
        Soup.getitem (Some source) "src" = Ok src)).
Proof.
  assert (domain <> Some "gfycat" ->
          get_image_link_from_allowed_domain web url domain = Ok None) as Hother.
  { intros Hne. unfold get_image_link_from_allowed_domain.
    destruct domain as [d|]; [|reflexivity].
    destruct (String.eqb d "reddit"); [reflexivity |].
    destruct (String.eqb d "imgur"); [reflexivity |].
    destruct (String.eqb d "gfycat") eqn:Hg.
    - apply String.eqb_eq in Hg. congruence.
    - destruct (String.eqb d "tumblr"); [reflexivity |].
      destruct (String.eqb d "blogspot"); reflexivity. }
  assert (get_image_link_from_allowed_domain web url (Some "gfycat") = parse_gfycat web url)
    as Hgfy by reflexivity.
  split; [exact Hother | split; [| split; [| split; [| split; [| split]]]]].
  - intros Hout. apply Hother. intros ->. apply (Hout "gfycat" eq_refl).
    simpl. tauto.
  - intros ->. reflexivity.
  - intros e He. rewrite Hgfy. unfold parse_gfycat, make_soup. now rewrite He.
  - intros soup Hs Hnone. rewrite Hgfy. unfold parse_gfycat, make_soup.
    rewrite Hs. cbn [bind]. now rewrite Hnone.
  - intros soup found Hs Hfound. rewrite Hgfy.
    destruct (find_webm_source soup found Hfound)
      as [[attrs [contents [-> Hid]]] [before [after [Hdesc Hfirst]]]].
    exists attrs, contents, before, after. repeat split; try assumption.
    unfold parse_gfycat, make_soup. rewrite Hs. cbn [bind]. rewrite Hfound.
    cbn [Soup.getitem]. now destruct (Soup.get_attr "src" attrs).
  - apply parse_gfycat_ok_iff.
Qed.

Lemma resolver_silent_outside_gfycat_witness :
  get_image_link_from_allowed_domain Sample.offline
    "https://vimeo.com/12345" (Some "vimeo") = Ok None /\
  exists attrs contents before after,
    Tag "source" [("id", "webmSource"); ("src", "https://giant.gfycat.com/Cat.webm")] []
    = Tag "source" attrs contents /\
    Soup.get_attr "id" attrs = Some "webmSource" /\
    Soup.descendants (Sample.gfycat_page "https://giant.gfycat.com/Cat.webm")
    = before ++ Tag "source" [("id", "webmSource");
                              ("src", "https://giant.gfycat.com/Cat.webm")] [] :: after /\
    (forall n, In n before ->
       Soup.matches "source" (Soup.id_is "webmSource") n = false) /\
    get_image_link_from_allowed_domain
      (Sample.serving (Sample.gfycat_page "https://giant.gfycat.com/Cat.webm")
                      Sample.last_page)
      "https://gfycat.com/Cat" (Some "gfycat")
    = match Soup.get_attr "src" attrs with
      | Some src => Ok (Some src)
      | None => Raise (KeyError "src")
      end.
Proof.
  split.
  - apply (proj1 (resolver_silent_outside_gfycat Sample.offline
                    "https://vimeo.com/12345" (Some "vimeo"))).
    discriminate.
  - exact (proj1 (proj2 (proj2 (proj2 (proj2 (proj2
             (resolver_silent_outside_gfycat
                (Sample.serving (Sample.gfycat_page "https://giant.gfycat.com/Cat.webm")
                                Sample.last_page)
                "https://gfycat.com/Cat" (Some "gfycat")))))))
             (Sample.gfycat_page "https://giant.gfycat.com/Cat.webm") _ eq_refl eq_refl).
Defined.

(** C6, counterexample. For the gfycat tag the resolver raises when the
    request fails, and when the page's source element has no [src]. *)
Lemma resolver_raises_for_gfycat :
  get_image_link_from_allowed_domain Sample.offline
    "https://gfycat.com/Cat" (Some "gfycat") = Raise (URLError "unreachable") /\
  get_image_link_from_allowed_domain
    (Sample.serving Sample.gfycat_page_without_src Sample.last_page)
    "https://gfycat.com/Cat" (Some "gfycat") = Raise (KeyError "src").
Proof. split; reflexivity. Qed.

(** ** The media reference *)

Lemma get_image_filename_known (u name : string) :
  get_image_filename u = Ok name -> known_file_format u <> None.
Proof.
  unfold get_image_filename. destruct (known_file_format u); simpl; congruence.
Qed.

(** C9 (as amended). Whenever [get_image] returns a media reference, its
    file name is present if and only if its image URL is present and
    contains a known extension, and the name is then the one
    [get_image_filename] derives from that URL; when the file name is
    absent the image URL is absent or empty. *)
Theorem media_reference_invariant (web : Web) (div : node) (img : image) :
  get_image web div = Ok img ->
  (filename img <> None <->
   exists u, image_url img = Some u /\ known_file_format u <> None) /\
  (filename img = None -> image_url img = None \/ image_url img = Some EmptyString) /\
  (forall name, filename img = Some name ->
     exists u, image_url img = Some u /\ get_image_filename u = Ok name).
Proof.
  unfold get_image, bind.
  destruct (get_post_url div) as [u|e]; [|discriminate].
  destruct (Str.truthy_opt (known_file_format u)) eqn:Hknown.
  - destruct (get_image_filename u) as [name|e] eqn:Hname; [|discriminate].
    intros [= <-]. simpl. repeat split.
    + intros _. exists u. split; [reflexivity |]. now apply get_image_filename_known in Hname.
    + discriminate.
    + discriminate.
    + intros n [= <-]. now exists u.
  - destruct (get_image_link_from_allowed_domain web u (known_domain u)) as [[v|]|e];
      [| |discriminate].
    + destruct v as [|c v].
      * simpl. intros [= <-]. simpl. repeat split.
        -- intros H. congruence.
        -- intros [u' [[= <-] H]]. now apply H.
        -- now right.
        -- discriminate.
      * cbn [Str.truthy_opt Str.truthy].
        destruct (get_image_filename (String c v)) as [name|e] eqn:Hname; [|discriminate].
        intros [= <-]. simpl. repeat split.
        -- intros _. exists (String c v). split; [reflexivity |].
           now apply get_image_filename_known in Hname.
        -- discriminate.
        -- discriminate.
        -- intros n [= <-]. now exists (String c v).
    + simpl. intros [= <-]. simpl. repeat split.
      * congruence.
      * intros [u' [H _]]. discriminate.
      * now left.
      * discriminate.
Qed.

Lemma media_reference_invariant_witness :
  (filename (image_dictionary (Some "https://i.redd.it/one.png") (Some "one.png")) <> None <->
   exists u, Some "https://i.redd.it/one.png" = Some u /\ known_file_format u <> None).
Proof.
  apply (proj1 (media_reference_invariant Sample.offline
                  (Sample.good_thing "https://i.redd.it/one.png")
                  (image_dictionary (Some "https://i.redd.it/one.png") (Some "one.png"))
                  eq_refl)).
Defined.

(** C9, counterexample. Building the media reference fails when the known
    extension lies outside the final path segment, and when the resolved
    URL has no known extension. *)
Lemma get_image_can_fail :
  get_image Sample.offline (Sample.good_thing "http://pics.jpg.example.org/view")
  = Raise AttributeError /\
  get_image (Sample.serving (Sample.gfycat_page "https://giant.gfycat.com/Cat.mp4")
                            Sample.last_page)
            (Sample.good_thing "https://gfycat.com/Cat")
  = Raise TypeError.
Proof. split; reflexivity. Qed.

Example get_image_samples :
  get_image Sample.offline (Sample.good_thing "https://i.redd.it/one.png")
  = Ok (image_dictionary (Some "https://i.redd.it/one.png") (Some "one.png")) /\
  get_image Sample.offline (Sample.good_thing "https://www.reddit.com/r/pics/comments/1/")
  = Ok (image_dictionary None None) /\
  get_image (Sample.serving (Sample.gfycat_page "https://giant.gfycat.com/Cat.webm")
                            Sample.last_page)
            (Sample.good_thing "https://gfycat.com/Cat")
  = Ok (image_dictionary (Some "https://giant.gfycat.com/Cat.webm") (Some "Cat.webm")) /\
  get_image (Sample.serving (Sample.gfycat_page "") Sample.last_page)
            (Sample.good_thing "https://gfycat.com/Cat")
  = Ok (image_dictionary (Some "") None).
Proof. repeat split. Qed.

(** ** Extraction of a page *)

Lemma bind_raises_l {A B : Type} (r : result A) (k : A -> result B) :
  raises r -> raises (bind r k).
Proof. intros [e ->]. now exists e. Qed.

Lemma bind_raises_r {A B : Type} (r : result A) (k : A -> result B) :
  (forall a, raises (k a)) -> raises (bind r k).
Proof. intros H. destruct r as [a|e]; simpl; [apply H | now exists e]. Qed.

(** A record is built exactly when each of the six sub-extractions
    returns. *)
Lemma post_of_div_ok_iff (web : Web) (page_url : option string) (div : node) (r : post) :
  post_of_div web page_url div = Ok r <->
  exists u i d t p l,
    get_post_url div = Ok u /\ get_image web div = Ok i /\
    get_post_domain div = Ok d /\ get_post_title div = Ok t /\
    get_post_timestamp div = Ok p /\ get_link_to_comments div = Ok l /\
    r = {| url := u; image_of := i; domain := d; post_title := t; posted_on := p;
           link_to_comments := l; on_page := page_url; html_status_token := 0 |}.
Proof.
  unfold post_of_div, bind. split.
  - destruct (get_post_url div) as [u|]; [|discriminate].
    destruct (get_image web div) as [i|]; [|discriminate].
    destruct (get_post_domain div) as [d|]; [|discriminate].
    destruct (get_post_title div) as [t|]; [|discriminate].
    destruct (get_post_timestamp div) as [p|]; [|discriminate].
    destruct (get_link_to_comments div) as [l|]; [|discriminate].
    intros [= <-]. now exists u, i, d, t, p, l.
  - intros [u [i [d [t [p [l [-> [-> [-> [-> [-> [-> ->]]]]]]]]]]]]. reflexivity.
Qed.

Lemma post_of_div_raises (web : Web) (page_url : option string) (div : node) :
  raises (get_post_domain div) \/ raises (get_post_title div) \/
  raises (get_post_timestamp div) \/ raises (get_link_to_comments div) ->
  raises (post_of_div web page_url div).
Proof.
  intros H. destruct (post_of_div web page_url div) as [r|e] eqn:Hr; [|now exists e].
  apply post_of_div_ok_iff in Hr
    as [u [i [d [t [p [l [_ [_ [Hd [Ht [Hp [Hl _]]]]]]]]]]]].
  destruct H as [[e H] | [[e H] | [[e H] | [e H]]]]; congruence.
Qed.

(** One failing container fails the whole comprehension. *)
Lemma collect_raises (web : Web) (page_url : option string) (things : list node) (div : node) :
  In div things -> raises (post_of_div web page_url div) ->
  raises (collect web page_url things).
Proof.
  induction things as [|d rest IH]; intros Hin Hr; [contradiction |].
  cbn [collect]. destruct Hin as [<-|Hin].
  - now apply bind_raises_l.
  - apply bind_raises_r. intros r. apply bind_raises_l. now apply IH.
Qed.

Lemma get_files_from_a_page_raises (web : Web) (soup : node) (page_url : option string)
    (div : node) :
  In div (things_of soup) -> raises (post_of_div web page_url div) ->
  raises (get_files_from_a_page web soup page_url).
Proof.
  intros Hin Hr. unfold get_files_from_a_page. apply bind_raises_l.
  eapply collect_raises; eassumption.
Qed.

Lemma get_link_to_comments_absent (div : node) :
  Soup.find "li" (Soup.class_is "first") div = None ->
  get_link_to_comments div = Raise AttributeError.
Proof. unfold get_link_to_comments. now intros ->. Qed.

(** C7 (as amended). When a post container of a page lacks its
    comments-link element, the extraction of the page raises and returns no
    record at all, the well-formed containers of the page included, and the
    exception leaves the crawl loop: the crawl aborts at that page. *)
Theorem malformed_container_fails_page (web : Web) (soup div : node) :
  In div (things_of soup) ->
  Soup.find "li" (Soup.class_is "first") div = None ->
  (forall page_url, raises (get_files_from_a_page web soup page_url)) /\
  (forall fuel pages url page images s,
     (page <= pages)%Z ->
     rendered web (visited s) url = Ok soup ->
     exists e,
       crawl_loop (S fuel) web pages (Some url) page true images s
       = (fst (make_beautiful_soup web (Some url) s), Some (Raise e))).
Proof.
  intros Hin Hli.
  assert (forall page_url, raises (get_files_from_a_page web soup page_url)) as Hpage.
  { intros page_url. apply (get_files_from_a_page_raises web soup page_url div Hin).
    apply post_of_div_raises. right; right; right.
    exists AttributeError. now apply get_link_to_comments_absent. }
  split; [exact Hpage |].
  intros fuel pages url page images s Hle Hrender.
  destruct (Hpage (Some url)) as [e He]. exists e.
  cbn [crawl_loop]. apply Z.leb_le in Hle. rewrite Hle. simpl.
  now rewrite Hrender, He.
Qed.

Lemma malformed_container_fails_page_witness :
  raises (get_files_from_a_page Sample.offline Sample.page_with_malformed_post None).
Proof.
  refine (proj1 (malformed_container_fails_page Sample.offline
                   Sample.page_with_malformed_post
                   (Sample.thing_without_comments "https://i.redd.it/two.png") _ _) None).
  - simpl. right. left. reflexivity.
  - reflexivity.
Defined.

(** C7, counterexample. The page has two well-formed containers around one
    without comments link; the two alone give two records, but the page
    gives none and the crawl ends with the exception. *)
Lemma malformed_container_drops_whole_page :
  (exists r1 r2,
     get_files_from_a_page Sample.offline Sample.page_of_good_posts
       (Some "https://www.reddit.com/r/pics/") = Ok ([r1; r2], None)) /\
  get_files_from_a_page Sample.offline Sample.page_with_malformed_post
    (Some "https://www.reddit.com/r/pics/") = Raise AttributeError /\
  get_all_posts 10 (Sample.serving Sample.last_page Sample.page_with_malformed_post)
    "https://www.reddit.com/r/pics/" 0
  = ({| visited := ["https://www.reddit.com/r/pics/"]; naps := 0; closed := false |},
     Some (Raise AttributeError)).
Proof.
  split; [do 2 eexists; reflexivity | split; reflexivity].
Qed.

Lemma get_post_timestamp_no_time (div : node) :
  Soup.find "time" Soup.no_filter div = None ->
  get_post_timestamp div = Raise AttributeError.
Proof. unfold get_post_timestamp. now intros ->. Qed.

Lemma get_post_domain_no_label (div p : node) :
  get_p_title_tag div = Some p ->
  Soup.find "span" (Soup.class_is "domain") p = None ->
  get_post_domain div = Raise AttributeError.
Proof. unfold get_post_domain. intros -> Hspan. simpl. now rewrite Hspan. Qed.

Lemma get_post_title_no_paragraph (div : node) :
  get_p_title_tag div = None -> get_post_title div = Raise AttributeError.
Proof. unfold get_post_title. now intros ->. Qed.

(** C8 (as amended). Only a missing attribute or text is tolerated: a time
    element without [datetime] gives no timestamp, a title link without a
    single text gives no title, and the record is built whenever the six
    sub-extractions return. When the time element, the domain label or the
    title paragraph itself is absent, the sub-extraction raises
    [AttributeError] and no record is built for the container. *)
Theorem optional_elements_must_exist (web : Web) (page_url : option string) (div : node) :
  (Soup.find "time" Soup.no_filter div = None ->
     get_post_timestamp div = Raise AttributeError /\
     raises (post_of_div web page_url div)) /\
  (forall p, get_p_title_tag div = Some p ->
     Soup.find "span" (Soup.class_is "domain") p = None ->
     get_post_domain div = Raise AttributeError /\
     raises (post_of_div web page_url div)) /\
  (get_p_title_tag div = None ->
     get_post_title div = Raise AttributeError /\
     raises (post_of_div web page_url div)) /\
  (forall name attrs contents,
     Soup.find "time" Soup.no_filter div = Some (Tag name attrs contents) ->
     Soup.get_attr "datetime" attrs = None ->
     get_post_timestamp div = Ok None) /\
  (forall p a,
     get_p_title_tag div = Some p -> Soup.find "a" Soup.no_filter p = Some a ->
     Soup.string_of a = None ->
     get_post_title div = Ok None) /\
  (forall u i d t p l,
     get_post_url div = Ok u -> get_image web div = Ok i ->
     get_post_domain div = Ok d -> get_post_title div = Ok t ->
     get_post_timestamp div = Ok p -> get_link_to_comments div = Ok l ->
     post_of_div web page_url div
     = Ok {| url := u; image_of := i; domain := d; post_title := t; posted_on := p;
             link_to_comments := l; on_page := page_url; html_status_token := 0 |}).
Proof.
  repeat split.
  - now apply get_post_timestamp_no_time.
  - apply post_of_div_raises. right; right; left.
    exists AttributeError. now apply get_post_timestamp_no_time.
  - now apply (get_post_domain_no_label div p).
  - apply post_of_div_raises. left.
    exists AttributeError. now apply (get_post_domain_no_label div p).
  - now apply get_post_title_no_paragraph.
  - apply post_of_div_raises. right; left.
    exists AttributeError. now apply get_post_title_no_paragraph.
  - intros name attrs contents Htime Hattr. unfold get_post_timestamp.
    rewrite Htime. simpl. now rewrite Hattr.
  - intros p a Hp Ha Hs. unfold get_post_title. rewrite Hp. simpl.
    rewrite Ha. simpl. now rewrite Hs.
  - intros u i d t p l Hu Hi Hd Ht Hp Hl. apply post_of_div_ok_iff.
    now exists u, i, d, t, p, l.
Qed.

Lemma optional_elements_must_exist_witness :
  get_post_timestamp (Sample.thing_without_time "https://i.redd.it/one.png")
  = Raise AttributeError /\
  raises (post_of_div Sample.offline None
            (Sample.thing_without_time "https://i.redd.it/one.png")).
Proof.
  apply (proj1 (optional_elements_must_exist Sample.offline None
                  (Sample.thing_without_time "https://i.redd.it/one.png"))).
  reflexivity.
Defined.

(** C8, counterexample. A container without time element, and one without
    domain label, produce no record: the sub-extraction raises. A time
    element without [datetime] is the tolerated case. *)
Lemma missing_optional_element_fails_record :
  post_of_div Sample.offline None (Sample.thing_without_time "https://i.redd.it/one.png")
  = Raise AttributeError /\
  get_post_timestamp (Sample.thing_without_time "https://i.redd.it/one.png")
  = Raise AttributeError /\
  post_of_div Sample.offline None (Sample.thing_without_domain "https://i.redd.it/one.png")
  = Raise AttributeError /\
  get_post_domain (Sample.thing_without_domain "https://i.redd.it/one.png")
  = Raise AttributeError /\
  is_ok (post_of_div Sample.offline None
           (Sample.thing_without_datetime "https://i.redd.it/one.png")) = true.
Proof. repeat split. Qed.

(** ** The download loop *)

Section DownloadLoop.

Import Downloader.

Lemma nothing_downloaded_refl (w : world) : nothing_downloaded w w.
Proof. split; [reflexivity | intros; now left]. Qed.

Lemma nothing_downloaded_trans (w1 w2 w3 : world) :
  nothing_downloaded w1 w2 -> nothing_downloaded w2 w3 -> nothing_downloaded w1 w3.
Proof.
  intros [Ht1 Hr1] [Ht2 Hr2]. split; [congruence |].
  intros p u. destruct (Hr2 p u) as [H2|H2]; [|now right].
  rewrite H2. apply Hr1.
Qed.

Lemma lookup_store_db (p path : string) (d : database) (dbs : list (string * database)) :
  lookup_db p (store_db path d dbs)
  = if String.eqb path p then Some d else lookup_db p dbs.
Proof.
  induction dbs as [|[q d'] dbs IH]; simpl.
  - reflexivity.
  - destruct (String.eqb q path) eqn:Hq; simpl.
    + apply String.eqb_eq in Hq; subst q. now destruct (String.eqb path p).
    + destruct (String.eqb q p) eqn:Hqp.
      * apply String.eqb_eq in Hqp; subst q. rewrite String.eqb_sym in Hq.
        now rewrite Hq.
      * exact IH.
Qed.

(** Replacing a store by one without rows writes no row. *)
Lemma store_empty_quiet (path : string) (d : database) (w : world) :
  images d = None \/ images d = Some [] ->
  nothing_downloaded w (set_databases (store_db path d (databases w)) w).
Proof.
  intros Hd. split; [reflexivity |]. intros p u. unfold rows_of. simpl.
  rewrite lookup_store_db. destruct (String.eqb path p); [|now left].
  right. destruct d as [[rows|]]; simpl in Hd; destruct Hd as [H|H];
    try discriminate; [injection H as -> |]; reflexivity.
Qed.

Lemma quiet_ret {A : Type} (a : A) : quiet (ret a).
Proof. intros w. apply nothing_downloaded_refl. Qed.

Lemma quiet_throw {A : Type} (e : exn) : quiet (@throw A e).
Proof. intros w. apply nothing_downloaded_refl. Qed.

Lemma quiet_seq {A B : Type} (m : action A) (k : A -> action B) :
  quiet m -> (forall a, quiet (k a)) -> quiet (seq m k).
Proof.
  intros Hm Hk w. unfold seq. specialize (Hm w).
  destruct (m w) as [w' [a|e]]; simpl in *; [|assumption].
  eapply nothing_downloaded_trans; [eassumption | apply Hk].
Qed.

Lemma quiet_getcwd : quiet getcwd.
Proof. intros w. apply nothing_downloaded_refl. Qed.

Lemma quiet_chdir (d : string) : quiet (chdir d).
Proof.
  intros w. unfold chdir. destruct (existsb (String.eqb d) (directories w)); simpl.
  - split; [reflexivity | intros; now left].
  - apply nothing_downloaded_refl.
Qed.

Lemma quiet_load_name {A : Type} (name : string) (binding : option A) :
  quiet (load_name name binding).
Proof. destruct binding; [apply quiet_ret | apply quiet_throw]. Qed.

Lemma quiet_make_connection (u : imports) (path : string) :
  quiet (make_connection u path).
Proof.
  intros w. unfold make_connection.
  destruct (database_file u path w) as [file|]; [| apply nothing_downloaded_refl].
  destruct (lookup_db file (databases w)); simpl.
  - apply nothing_downloaded_refl.
  - apply store_empty_quiet. now left.
Qed.

Lemma quiet_executescript (u : imports) (conn : string) :
  quiet (executescript_DB_TEMPLATE u conn).
Proof.
  intros w. unfold executescript_DB_TEMPLATE.
  destruct (script_failure u conn w); [apply nothing_downloaded_refl |].
  apply store_empty_quiet. now right.
Qed.

Lemma quiet_display (line : string) : quiet (display line).
Proof. intros w. split; [reflexivity | intros; now left]. Qed.

Lemma quiet_close (conn : string) : quiet (close conn).
Proof. apply quiet_ret. Qed.

Lemma quiet_download_loop (g : globals) (verbose : bool) (total current : nat)
    (files : list post) :
  quiet (download_loop g verbose total current files).
Proof.
  induction files as [|file_obj files IH]; cbn [download_loop]; [apply quiet_ret |].
  apply quiet_seq; [|intros _; exact IH].
  destruct (Str.truthy_opt (image_url (image_of file_obj))); [|apply quiet_ret].
  destruct verbose; [|apply quiet_ret].
  apply quiet_seq; [apply quiet_load_name |]. intros display_status.
  destruct (image_url (image_of file_obj)); [apply quiet_display | apply quiet_ret].
Qed.

(** Whatever the unbound names are bound to, a run of the function
    transfers no file and writes no row. *)
Lemma quiet_download_files_in (g : globals) (u : imports) (files : list post)
    (destination : string) (verbose : bool) :
  quiet (download_files_in g u files destination verbose).
Proof.
  unfold download_files_in.
  apply quiet_seq; [apply quiet_getcwd | intros current_directory].
  apply quiet_seq; [apply quiet_chdir | intros _].
  apply quiet_seq; [apply quiet_load_name | intros path].
  apply quiet_seq.
  { intros w. destruct (negb (is_valid_path u (clean_path u path ++ "/db.sqlite") w)).
    - apply (quiet_seq (make_connection u _) (fun conn => executescript_DB_TEMPLATE u conn)).
      + apply quiet_make_connection.
      + intros conn. apply quiet_executescript.
    - apply quiet_ret. }
  intros _. apply quiet_seq; [apply quiet_make_connection | intros conn].
  apply quiet_seq; [apply quiet_download_loop | intros _].
  apply quiet_seq; [apply quiet_close | intros _]. apply quiet_chdir.
Qed.

Lemma rows_never_marked (w w' : world) (db_path source_url : string) :
  nothing_downloaded w w' ->
  marked_downloaded w' db_path source_url = true ->
  marked_downloaded w db_path source_url = true.
Proof.
  intros [_ Hrows]. unfold marked_downloaded.
  destruct (Hrows db_path source_url) as [-> | ->]; [tauto | discriminate].
Qed.

(** The function as the module defines it stops at the unbound name
    [path], right after changing the directory. *)
Lemma download_files_raises (u : imports) (files : list post) (destination : string)
    (verbose : bool) (w : world) :
  snd (download_files u files destination verbose w)
  = if existsb (String.eqb destination) (directories w)
    then Raise (NameError "path") else Raise FileNotFoundError.
Proof.
  unfold download_files, download_files_in, seq, getcwd, chdir. simpl.
  destruct (existsb (String.eqb destination) (directories w)); reflexivity.
Qed.

End DownloadLoop.

(** C1. Two runs of [download_files] over the same record, under any
    binding of the names the module leaves unbound, add no row to any
    store: the number of rows kept for a post never grows, so a post seen
    for the first time has no row afterwards, where the claim asks for
    exactly one. On the sample destination the store ends up without rows,
    and the function as defined raises [NameError] before it opens the
    store. *)
Theorem download_files_stores_no_row (g : Downloader.globals) (u : Downloader.imports)
    (r : post) (destination : string) (verbose : bool) (w : Downloader.world)
    (db_path : string) :
  let w1 := fst (Downloader.download_files_in g u [r] destination verbose w) in
  let w2 := fst (Downloader.download_files_in g u [r] destination verbose w1) in
  List.length (Downloader.rows_of w2 db_path (url r))
  <= List.length (Downloader.rows_of w db_path (url r)) /\
  Downloader.rows_of
    (fst (Downloader.download_files_in Sample.repaired_globals Sample.helpers
            [Sample.resolved_post] "/home/user/pics" false
            (fst (Downloader.download_files_in Sample.repaired_globals Sample.helpers
                    [Sample.resolved_post] "/home/user/pics" false Sample.fresh_world))))
    "/home/user/pics/db.sqlite" (url Sample.resolved_post) = [] /\
  Downloader.download_files Sample.helpers [Sample.resolved_post] "/home/user/pics" false
    Sample.fresh_world
  = ({| Downloader.cwd := "/home/user/pics";
        Downloader.directories := ["/home/user"; "/home/user/pics"];
        Downloader.databases := [];
        Downloader.transferred := [];
        Downloader.console := [] |}, Raise (NameError "path")).
Proof.
  intros w1 w2. split; [| split; reflexivity].
  assert (nothing_downloaded w w2) as [_ Hrows].
  { eapply nothing_downloaded_trans; apply quiet_download_files_in. }
  destruct (Hrows db_path (url r)) as [-> | ->]; simpl; lia.
Qed.

(** C2. A run of [download_files] transfers no file and marks no row
    downloaded, for every queue of records, also for records with a
    resolved media URL that the store does not know, and under any binding
    of the names the module leaves unbound; as the module defines it, the
    function raises before it reaches its loop. *)
Theorem download_files_transfers_nothing (g : Downloader.globals) (u : Downloader.imports)
    (files : list post) (destination : string) (verbose : bool) (w : Downloader.world) :
  let w' := fst (Downloader.download_files_in g u files destination verbose w) in
  Downloader.transferred w' = Downloader.transferred w /\
  (forall db_path source_url,
     Downloader.marked_downloaded w' db_path source_url = true ->
     Downloader.marked_downloaded w db_path source_url = true) /\
  snd (Downloader.download_files u files destination verbose w)
  = (if existsb (String.eqb destination) (Downloader.directories w)
     then Raise (NameError "path") else Raise FileNotFoundError).
Proof.
  intros w'. pose proof (quiet_download_files_in g u files destination verbose w) as Hq.
  split; [apply Hq | split].
  - intros db_path source_url. now apply rows_never_marked.
  - apply download_files_raises.
Qed.

(** The sample record has a resolved media URL and is not marked in the
    store; with both names bound the run ends normally, the file was not
    transferred and the record is still not marked. *)
Example download_files_sample_run :
  Str.truthy_opt (image_url (image_of Sample.resolved_post)) = true /\
  Downloader.download_files_in Sample.repaired_globals Sample.helpers
    [Sample.resolved_post] "/home/user/pics" true Sample.fresh_world
  = ({| Downloader.cwd := "/home/user";
        Downloader.directories := ["/home/user"; "/home/user/pics"];
        Downloader.databases :=
          [("/home/user/pics/db.sqlite", {| Downloader.images := Some [] |})];
        Downloader.transferred := [];
        Downloader.console := ["https://i.redd.it/one.png"] |}, Ok tt).
Proof. split; reflexivity. Qed.

(** * Further properties of the code *)

(** ** File names and extensions *)

Lemma no_char_app (x : ascii) (a b : string) :
  Str.no_char x (a ++ b)%string = Str.no_char x a && Str.no_char x b.
Proof.
  induction a as [|c a IH]; simpl; [reflexivity |].
  now rewrite IH, andb_assoc.
Qed.

Lemma append_empty_r (a : string) : (a ++ "")%string = a.
Proof. induction a as [|c a IH]; simpl; [reflexivity | now rewrite IH]. Qed.

Lemma occurs_trans (a b c : string) : occurs a b -> occurs b c -> occurs a c.
Proof.
  intros [p [q ->]] [r [t ->]]. exists (r ++ p)%string, (q ++ t)%string.
  now rewrite !append_assoc.
Qed.

Lemma first_occurring_In (xs : list string) (s x : string) :
  first_occurring xs s x -> In x xs /\ occurs x s.
Proof.
  intros [before [after [-> [Hocc _]]]]. split; [|assumption].
  apply in_or_app. right. now left.
Qed.

Lemma split_not_nil (sep : ascii) (s : string) : Str.split sep s <> [].
Proof.
  destruct s as [|c s]; simpl; [discriminate |].
  destruct (Ascii.eqb c sep); [discriminate |].
  destruct (Str.split sep s); discriminate.
Qed.

(** [(a + sep + b).split(sep) == a.split(sep) + b.split(sep)] *)
Lemma split_app_sep (sep : ascii) (a b : string) :
  Str.split sep (a ++ String sep b)%string = Str.split sep a ++ Str.split sep b.
Proof.
  induction a as [|x a IH]; cbn [append Str.split].
  - now rewrite Ascii.eqb_refl.
  - destruct (Ascii.eqb x sep); [now rewrite IH |].
    rewrite IH. pose proof (split_not_nil sep a) as Hne.
    destruct (Str.split sep a) as [|h t]; [congruence | reflexivity].
Qed.

Lemma split_no_sep (sep : ascii) (s : string) :
  Str.no_char sep s = true -> Str.split sep s = [s].
Proof.
  induction s as [|c s IH]; cbn [Str.no_char Str.split]; [reflexivity |].
  intros H. apply andb_true_iff in H as [Hc Hs].
  apply negb_true_iff in Hc. rewrite Hc, (IH Hs). reflexivity.
Qed.

Lemma last_segment_no_slash (s : string) :
  Str.no_char "/" s = true -> last_segment s = s.
Proof. intros H. unfold last_segment. now rewrite split_no_sep. Qed.

(** X1. [known_file_format] returns the first extension of the list
    .jpg, .jpeg, .png, .gif, .webm that occurs anywhere in the URL; what it
    returns is always an element of the list and a substring of the URL. *)
Theorem known_file_format_first_substring (url : string) :
  (forall ext, known_file_format url = Some ext <-> first_occurring FILE_FORMATS url ext) /\
  (forall ext, known_file_format url = Some ext -> In ext FILE_FORMATS /\ occurs ext url) /\
  (forall ext, In ext FILE_FORMATS -> occurs ext url -> known_file_format url <> None).
Proof.
  split; [| split].
  - intros ext. apply first_contained_Some.
  - intros ext H. apply first_contained_Some in H. now apply first_occurring_In.
  - intros ext Hin Hocc Hnone. unfold known_file_format in Hnone.
    rewrite first_contained_None in Hnone. now apply (Hnone ext).
Qed.

(** X2. The candidate of [get_image_filename], [url.split('/')[-1]], is
    the text after the last slash: for a tail without slash, the last
    segment of [head + '/' + tail] is [tail], and the last segment of a URL
    without slash is the URL. *)
Theorem last_segment_after_last_slash (head tail : string) :
  Str.no_char "/" tail = true ->
  last_segment (head ++ "/" ++ tail)%string = tail /\ last_segment tail = tail.
Proof.
  intros Hno. split; [| now apply last_segment_no_slash].
  unfold last_segment. cbn [append]. rewrite split_app_sep, (split_no_sep _ _ Hno).
  apply last_last.
Qed.

Lemma last_segment_after_last_slash_witness :
  last_segment ("https://i.redd.it/album" ++ "/" ++ "one.png")%string = "one.png" /\
  last_segment "one.png" = "one.png".
Proof. apply last_segment_after_last_slash. reflexivity. Defined.

Lemma get_image_filename_parts (url f : string) :
  get_image_filename url = Ok f ->
  exists stem ext rest,
    f = (stem ++ ext)%string /\ stem <> EmptyString /\ Str.no_newline stem = true /\
    last_segment url = (f ++ rest)%string /\
    first_occurring FILE_FORMATS url ext.
Proof.
  intros H. apply get_image_filename_iff in H
    as [ext [Hfirst [stem [rest [Hseg [Hne [Hnl [Hf _]]]]]]]].
  exists stem, ext, rest. repeat split; try assumption.
  now rewrite Hseg, Hf, append_assoc.
Qed.

Lemma get_image_filename_occurs (url f : string) :
  get_image_filename url = Ok f -> Str.no_char "/" f = true /\ occurs f url.
Proof.
  intros H. apply get_image_filename_parts in H
    as [stem [ext [rest [Hf [_ [_ [Hseg _]]]]]]].
  destruct (last_segment_spec url) as [Hno Hurl]. rewrite Hseg in Hno, Hurl.
  rewrite no_char_app in Hno. apply andb_true_iff in Hno as [Hno _].
  split; [assumption |]. destruct Hurl as [Hurl | [pre Hurl]].
  - exists EmptyString, rest. exact Hurl.
  - exists (pre ++ "/")%string, rest. now rewrite Hurl, !append_assoc.
Qed.

(** X3. A file name that [get_image_filename] returns contains no slash,
    consists of a non-empty stem followed by the known extension that
    [known_file_format] finds in the URL, is a prefix of the URL's last
    segment, and occurs in the URL. *)
Theorem get_image_filename_shape (url f : string) :
  get_image_filename url = Ok f ->
  Str.no_char "/" f = true /\
  (exists stem ext,
     f = (stem ++ ext)%string /\ stem <> EmptyString /\
     In ext FILE_FORMATS /\ known_file_format url = Some ext) /\
  (exists rest, last_segment url = (f ++ rest)%string) /\
  occurs f url.
Proof.
  intros H. destruct (get_image_filename_occurs url f H) as [Hno Hocc].
  apply get_image_filename_parts in H
    as [stem [ext [rest [Hf [Hne [_ [Hseg Hfirst]]]]]]].
  split; [assumption | split; [| split; [now exists rest | assumption]]].
  exists stem, ext. repeat split; try assumption.
  - now apply first_occurring_In in Hfirst.
  - now apply first_contained_Some.
Qed.

Lemma get_image_filename_shape_witness :
  Str.no_char "/" "xYz.jpeg" = true /\
  (exists stem ext,
     "xYz.jpeg" = (stem ++ ext)%string /\ stem <> EmptyString /\
     In ext FILE_FORMATS /\ known_file_format "https://i.imgur.com/xYz.jpeg?1" = Some ext) /\
  (exists rest, last_segment "https://i.imgur.com/xYz.jpeg?1" = ("xYz.jpeg" ++ rest)%string) /\
  occurs "xYz.jpeg" "https://i.imgur.com/xYz.jpeg?1".
Proof. apply get_image_filename_shape. reflexivity. Defined.

(** X4. Deriving a file name is idempotent: a name that
    [get_image_filename] returned for a URL is returned unchanged when the
    function is applied to the name itself. *)
Theorem get_image_filename_idempotent (url f : string) :
  get_image_filename url = Ok f -> get_image_filename f = Ok f.
Proof.
  intros H. destruct (get_image_filename_occurs url f H) as [Hno Hocc].
  apply get_image_filename_parts in H
    as [stem [ext [rest [Hf [Hne [Hnl [_ Hfirst]]]]]]].
  apply get_image_filename_iff. exists ext. split.
  - destruct Hfirst as [before [after [Hxs [_ Hnone]]]].
    exists before, after. repeat split; [assumption | |].
    + exists stem, EmptyString. now rewrite append_empty_r.
    + intros y Hy Hocc_y. apply (Hnone y Hy). now apply (occurs_trans y f url).
  - rewrite (last_segment_no_slash f Hno).
    exists stem, EmptyString. repeat split; try assumption.
    + now rewrite append_empty_r.
    + intros pre' rest' Hsplit _.
      assert (String.length f = String.length f) as Hlen by reflexivity.
      rewrite Hsplit in Hlen at 1. rewrite Hf in Hlen.
      rewrite !length_append in Hlen. lia.
Qed.

Lemma get_image_filename_idempotent_witness :
  get_image_filename "abc123.png" = Ok "abc123.png".
Proof.
  apply (get_image_filename_idempotent "https://i.redd.it/albums/abc123.png?w=640").
  reflexivity.
Defined.

(** ** Extraction *)

Lemma collect_ok (web : Web) (page_url : option string) (things : list node)
    (records : list post) :
  collect web page_url things = Ok records ->
  Forall2 (fun div r => post_of_div web page_url div = Ok r) things records.
Proof.
  revert records. induction things as [|div rest IH]; intros records; cbn [collect].
  - intros [= <-]. constructor.
  - unfold bind. destruct (post_of_div web page_url div) as [r|e] eqn:Hr; [|discriminate].
    destruct (collect web page_url rest) as [rs|e]; [|discriminate].
    intros [= <-]. constructor; [assumption | now apply IH].
Qed.

Lemma get_files_from_a_page_records (web : Web) (soup : node) (page_url : option string)
    (records : list post) (next : option string) :
  get_files_from_a_page web soup page_url = Ok (records, next) ->
  Forall2 (fun div r => post_of_div web page_url div = Ok r) (things_of soup) records.
Proof.
  unfold get_files_from_a_page, bind.
  destruct (collect web page_url (things_of soup)) as [imgs|e] eqn:Hc; [|discriminate].
  destruct (next_page_span_of soup) as [span|].
  - destruct (Soup.dot_a (Some span)) as [a|e]; [|discriminate].
    destruct (Soup.getitem a "href") as [href|e]; [|discriminate].
    intros [= <- _]. now apply collect_ok.
  - intros [= <- _]. now apply collect_ok.
Qed.

Lemma get_files_from_a_page_on_page (web : Web) (soup : node) (page_url : option string)
    (records : list post) (next : option string) :
  get_files_from_a_page web soup page_url = Ok (records, next) ->
  Forall (fun r => on_page r = page_url /\ html_status_token r = 0%Z) records.
Proof.
  intros H. apply get_files_from_a_page_records in H.
  induction H as [|div r things records Hr _ IH]; constructor; [|exact IH].
  apply post_of_div_ok_iff in Hr as [u [i [d [t [p [l [_ [_ [_ [_ [_ [_ ->]]]]]]]]]]]].
  split; reflexivity.
Qed.

(** X5. When the extraction of a page returns, it returns exactly one
    record for each post container of the page, in document order; every
    record carries the page's URL in [on_page] and the status token 0. *)
Theorem one_record_per_container (web : Web) (soup : node) (page_url : option string)
    (records : list post) (next : option string) :
  get_files_from_a_page web soup page_url = Ok (records, next) ->
  Forall2 (fun div r => post_of_div web page_url div = Ok r) (things_of soup) records /\
  List.length records = List.length (things_of soup) /\
  Forall (fun r => on_page r = page_url /\ html_status_token r = 0%Z) records.
Proof.
  intros H. pose proof (get_files_from_a_page_records _ _ _ _ _ H) as H2.
  split; [assumption | split].
  - symmetry. eapply Forall2_length. eassumption.
  - eapply get_files_from_a_page_on_page. eassumption.
Qed.

Lemma one_record_per_container_witness :
  exists records,
    get_files_from_a_page Sample.offline Sample.page_of_good_posts (Some "listing")
    = Ok (records, None) /\
    List.length records = List.length (things_of Sample.page_of_good_posts) /\
    Forall (fun r => on_page r = Some "listing" /\ html_status_token r = 0%Z) records.
Proof.
  eexists. split; [reflexivity |].
  apply (one_record_per_container Sample.offline Sample.page_of_good_posts
           (Some "listing") _ None eq_refl).
Defined.

(** X6. The title is read from the link the post URL is read from:
    whenever [get_post_url] returns, [get_post_title] returns too, so a
    container never fails on its title alone; and a container without title
    link fails both. *)
Theorem title_follows_url (div : node) :
  (forall u, get_post_url div = Ok u -> exists t, get_post_title div = Ok t) /\
  (raises (get_post_title div) -> raises (get_post_url div)).
Proof.
  assert (forall u, get_post_url div = Ok u -> exists t, get_post_title div = Ok t) as Hok.
  { intros u. unfold get_post_url, get_post_title, bind.
    destruct (Soup.dot_a (get_p_title_tag div)) as [[a|]|e]; simpl; try discriminate.
    intros _. now eexists. }
  split; [exact Hok |].
  intros [e He]. destruct (get_post_url div) as [u|e'] eqn:Hu; [|now exists e'].
  destruct (Hok u eq_refl) as [t Ht]. congruence.
Qed.

(** X7. A post that links straight to a file with a known extension keeps
    its link: the media reference does not depend on the web, and when it is
    returned its image URL is the post URL and its file name is present. *)
Theorem direct_link_kept (web : Web) (div : node) (u : string) :
  get_post_url div = Ok u ->
  known_file_format u <> None ->
  (forall web', get_image web' div = get_image web div) /\
  (forall img, get_image web div = Ok img ->
     image_url img = Some u /\
     exists name, filename img = Some name /\ get_image_filename u = Ok name).
Proof.
  intros Hu Hknown.
  assert (Str.truthy_opt (known_file_format u) = true) as Htruthy.
  { destruct (known_file_format u) as [ext|] eqn:Hext; [|congruence].
    apply first_contained_Some in Hext. apply first_occurring_In in Hext as [Hin _].
    simpl in Hin. repeat (destruct Hin as [<- | Hin]; [reflexivity |]). contradiction. }
  split.
  - intros web'. unfold get_image. rewrite Hu. simpl. now rewrite Htruthy.
  - intros img. unfold get_image. rewrite Hu. simpl. rewrite Htruthy.
    destruct (get_image_filename u) as [name|e]; simpl; [|discriminate].
    intros [= <-]. simpl. split; [reflexivity | now exists name].
Qed.

Lemma direct_link_kept_witness :
  get_image (Sample.serving Sample.gfycat_page_without_src Sample.last_page)
    (Sample.good_thing "https://i.redd.it/one.png")
  = get_image Sample.offline (Sample.good_thing "https://i.redd.it/one.png").
Proof.
  apply (proj1 (direct_link_kept Sample.offline
                  (Sample.good_thing "https://i.redd.it/one.png")
                  "https://i.redd.it/one.png" eq_refl ltac:(discriminate))).
Defined.

Lemma resolver_other_domain (web : Web) (u : string) (tag : option string) :
  tag <> Some "gfycat" -> get_image_link_from_allowed_domain web u tag = Ok None.
Proof.
  intros Hne. unfold get_image_link_from_allowed_domain.
  destruct tag as [d|]; [|reflexivity].
  destruct (String.eqb d "gfycat") eqn:Hg.
  - apply String.eqb_eq in Hg. congruence.
  - now repeat match goal with |- context [if ?b then _ else _] => destruct b end.
Qed.

(** X8. A post whose URL has no known extension is resolved only through
    gfycat: when [known_domain] does not answer gfycat the media reference is
    returned with both fields absent and the web is not consulted. Since
    reddit and imgur come first in the list, this covers every URL that
    mentions one of them, a gfycat URL included. *)
Theorem unresolved_unless_gfycat (web : Web) (div : node) (u : string) :
  get_post_url div = Ok u ->
  known_file_format u = None ->
  (known_domain u <> Some "gfycat" ->
     get_image web div = Ok (image_dictionary None None)) /\
  (occurs "reddit" u \/ occurs "imgur" u ->
     get_image web div = Ok (image_dictionary None None)).
Proof.
  intros Hu Hnone.
  assert (known_domain u <> Some "gfycat" ->
          get_image web div = Ok (image_dictionary None None)) as Hother.
  { intros Hdom. unfold get_image. rewrite Hu. simpl. rewrite Hnone. simpl.
    now rewrite (resolver_other_domain web u (known_domain u) Hdom). }
  split; [exact Hother |].
  intros Hocc. apply Hother. unfold known_domain, DOMAINS. cbn [first_contained].
  destruct Hocc as [Hr | Hi].
  - apply contains_iff in Hr. rewrite Hr. discriminate.
  - apply contains_iff in Hi. rewrite Hi.
    destruct (Str.contains "reddit" u); discriminate.
Qed.

Lemma unresolved_unless_gfycat_witness :
  get_image Sample.offline (Sample.good_thing "https://gfycat.com/from-reddit/Cat")
  = Ok (image_dictionary None None).
Proof.
  apply (proj2 (unresolved_unless_gfycat Sample.offline
                  (Sample.good_thing "https://gfycat.com/from-reddit/Cat")
                  "https://gfycat.com/from-reddit/Cat" eq_refl eq_refl)).
  left. exists "https://gfycat.com/from-", "/Cat". reflexivity.
Defined.

(** ** The crawl as a whole *)

Lemma make_beautiful_soup_ok (web : Web) (url : option string) (s s1 : session) (soup : node) :
  make_beautiful_soup web url s = (s1, Ok soup) ->
  exists u, url = Some u /\ rendered web (visited s) u = Ok soup /\
            visited s1 = visited s ++ [u] /\ naps s1 = naps s /\ closed s1 = closed s.
Proof.
  unfold make_beautiful_soup. destruct url as [u|]; [|discriminate].
  intros [= <- Hr]. exists u. now repeat split.
Qed.

Lemma make_beautiful_soup_keeps (web : Web) (url : option string) (s : session) :
  naps (fst (make_beautiful_soup web url s)) = naps s /\
  closed (fst (make_beautiful_soup web url s)) = closed s.
Proof. destruct url; split; reflexivity. Qed.

(** The books of the loop: a nap follows every page that was fetched and
    extracted, and only the normal exit closes the session. *)
Lemma crawl_loop_session (fuel : nat) (web : Web) (pages : Z) :
  forall url page crawl images s,
    let run := crawl_loop fuel web pages url page crawl images s in
    match snd run with
    | Some (Ok _) =>
        closed (fst run) = true /\
        naps (fst run) + pages_fetched s = pages_fetched (fst run) + naps s
    | Some (Raise _) =>
        closed (fst run) = closed s /\
        naps (fst run) + pages_fetched s <= pages_fetched (fst run) + naps s
    | None =>
        closed (fst run) = closed s /\
        naps (fst run) + pages_fetched s = pages_fetched (fst run) + naps s
    end.
Proof.
  induction fuel as [|fuel IH]; intros url page crawl images s; cbn [crawl_loop].
  - destruct ((page <=? pages)%Z && crawl); unfold pages_fetched; simpl; split;
      reflexivity || lia.
  - destruct ((page <=? pages)%Z && crawl);
      [| unfold pages_fetched; simpl; split; reflexivity || lia].
    pose proof (make_beautiful_soup_fetches_at_most_one web url s) as Hone.
    pose proof (make_beautiful_soup_keeps web url s) as [Hn Hc].
    destruct (make_beautiful_soup web url s) as [s1 [soup|e]] eqn:Hs1; simpl in Hone, Hn, Hc.
    2:{ simpl. split; [assumption |]. unfold pages_fetched in *.
        rewrite Hn. destruct url; simpl in Hs1; injection Hs1 as <- _; simpl;
          rewrite ?length_app; simpl; lia. }
    apply make_beautiful_soup_ok in Hs1 as [u [-> [_ [Hv _]]]].
    destruct (get_files_from_a_page web soup (Some u)) as [[pictures next_page]|e].
    2:{ simpl. split; [assumption |]. unfold pages_fetched. rewrite Hv, length_app.
        simpl. lia. }
    match goal with
    | |- context [crawl_loop fuel web pages ?a ?b ?c ?d ?e] =>
        specialize (IH a b c d e); cbv zeta in IH;
        destruct (crawl_loop fuel web pages a b c d e) as [s' r]
    end.
    simpl in IH |- *. unfold pages_fetched in *. simpl in IH.
    rewrite Hv, length_app in IH. simpl in IH.
    destruct r as [[posts|e]|]; destruct IH as [Hcl Hnaps]; split; try congruence; lia.
Qed.

(** X9. A crawl that returns its records has closed the browser session
    and has taken one politeness nap per page fetched; a crawl that ends in
    an exception leaves the session open. *)
Theorem session_closed_only_on_return (fuel : nat) (web : Web) (url : string) (pages : Z) :
  let run := get_all_posts fuel web url pages in
  (forall posts, snd run = Some (Ok posts) ->
     closed (fst run) = true /\ naps (fst run) = pages_fetched (fst run)) /\
  (forall e, snd run = Some (Raise e) ->
     closed (fst run) = false /\ naps (fst run) <= pages_fetched (fst run)).
Proof.
  intros run. unfold run, get_all_posts.
  match goal with
  | |- context [crawl_loop fuel web pages ?a ?b ?c ?d ?e] =>
      pose proof (crawl_loop_session fuel web pages a b c d e) as H; cbv zeta in H;
      destruct (crawl_loop fuel web pages a b c d e) as [s' r]
  end.
  simpl in *. split.
  - intros posts ->. destruct H as [Hc Hn]. split; [assumption |].
    unfold pages_fetched in *. simpl in Hn. lia.
  - intros e ->. destruct H as [Hc Hn]. split; [assumption |].
    unfold pages_fetched in *. simpl in Hn. lia.
Qed.

Lemma session_closed_only_on_return_witness :
  closed (fst (get_all_posts 10
                 (Sample.serving Sample.last_page Sample.page_with_malformed_post)
                 "https://www.reddit.com/r/pics/" 0)) = false.
Proof.
  apply (proj2 (session_closed_only_on_return 10
                  (Sample.serving Sample.last_page Sample.page_with_malformed_post)
                  "https://www.reddit.com/r/pics/" 0) AttributeError).
  reflexivity.
Defined.

Lemma truthy_int_nonzero (n : Z) : n <> 0%Z -> truthy_int n = true.
Proof. intros H. unfold truthy_int. now apply negb_true_iff, Z.eqb_neq. Qed.

(** On a web that never runs dry, a bounded loop runs until its counter
    passes the bound. *)
Lemma crawl_loop_endless_bounded (web : Web) (pages : Z) :
  endless web -> (pages <> 0)%Z ->
  forall fuel u page images s,
    Z.to_nat (pages + 1 - page) <= fuel ->
    exists s' posts,
      crawl_loop fuel web pages (Some u) page true images s = (s', Some (Ok posts)) /\
      pages_fetched s' = pages_fetched s + Z.to_nat (pages + 1 - page).
Proof.
  intros Hweb Hnz. induction fuel as [|fuel IH]; intros u page images s Hfuel.
  - cbn [crawl_loop]. destruct (page <=? pages)%Z eqn:Hle.
    + apply Z.leb_le in Hle. lia.
    + apply Z.leb_gt in Hle. simpl. do 2 eexists. split; [reflexivity |].
      unfold pages_fetched. simpl. lia.
  - cbn [crawl_loop]. destruct (page <=? pages)%Z eqn:Hle.
    + apply Z.leb_le in Hle. simpl.
      destruct (Hweb (visited s) u) as [soup [pictures [next [Hr [He Ht]]]]].
      rewrite Hr, He. simpl. rewrite Ht, (truthy_int_nonzero pages Hnz). simpl.
      match goal with
      | |- context [crawl_loop fuel web pages _ _ _ ?d ?e] =>
          destruct (IH next (page + 1)%Z d e) as [s' [posts [Hrun Hcount]]]; [lia |]
      end.
      exists s', posts. split; [exact Hrun |]. rewrite Hcount.
      unfold pages_fetched. simpl. rewrite length_app. simpl. lia.
    + apply Z.leb_gt in Hle. simpl. do 2 eexists. split; [reflexivity |].
      unfold pages_fetched. simpl. lia.
Qed.

(** X10. On a listing that never runs dry (every page is extracted and
    links to a next page), a crawl with a page bound other than 0 fetches
    exactly that many pages, none for a negative bound, and returns. *)
Theorem bounded_crawl_fetches_exactly (web : Web) (url : string) (pages : Z) (fuel : nat) :
  endless web -> (pages <> 0)%Z -> Z.to_nat pages <= fuel ->
  exists s' posts,
    get_all_posts fuel web url pages = (s', Some (Ok posts)) /\
    pages_fetched s' = Z.to_nat pages.
Proof.
  intros Hweb Hnz Hfuel. unfold get_all_posts.
  rewrite (truthy_int_nonzero pages Hnz).
  destruct (crawl_loop_endless_bounded web pages Hweb Hnz fuel url 1%Z [] new_session)
    as [s' [posts [Hrun Hcount]]]; [lia |].
  exists s', posts. split; [exact Hrun |]. rewrite Hcount.
  unfold pages_fetched. simpl. f_equal. lia.
Qed.

Lemma serving_page_with_next_endless :
  endless (Sample.serving Sample.last_page Sample.page_with_next).
Proof. intros history u. do 3 eexists. repeat split. Qed.

Lemma bounded_crawl_fetches_exactly_witness :
  exists s' posts,
    get_all_posts 5 (Sample.serving Sample.last_page Sample.page_with_next)
      "https://www.reddit.com/r/pics/" 3 = (s', Some (Ok posts)) /\
    pages_fetched s' = 3.
Proof.
  apply (bounded_crawl_fetches_exactly
           (Sample.serving Sample.last_page Sample.page_with_next)
           "https://www.reddit.com/r/pics/" 3 5 serving_page_with_next_endless).
  - discriminate.
  - simpl. lia.
Defined.

Lemma crawl_loop_endless_unbounded (web : Web) :
  endless web ->
  forall fuel u images s,
    snd (crawl_loop fuel web 0 (Some u) 0 true images s) = None /\
    pages_fetched (fst (crawl_loop fuel web 0 (Some u) 0 true images s))
    = pages_fetched s + fuel.
Proof.
  intros Hweb. induction fuel as [|fuel IH]; intros u images s; cbn [crawl_loop]; simpl.
  - split; [reflexivity | lia].
  - destruct (Hweb (visited s) u) as [soup [pictures [next [Hr [He Ht]]]]].
    rewrite Hr, He. simpl. rewrite Ht. simpl.
    match goal with
    | |- context [crawl_loop fuel web 0 _ 0 true ?d ?e] =>
        destruct (IH next d e) as [Hnone Hcount]
    end.
    split; [exact Hnone |]. rewrite Hcount. unfold pages_fetched. simpl.
    rewrite length_app. simpl. lia.
Qed.

(** X11. The unbounded crawl has no other way out than a page without
    next link: on a listing that never runs dry (a listing that links back to
    itself is enough) the crawl with [pages = 0] never returns, and has
    fetched as many pages as iterations were run. *)
Theorem unbounded_crawl_diverges (web : Web) (url : string) (fuel : nat) :
  endless web ->
  snd (get_all_posts fuel web url 0) = None /\
  pages_fetched (fst (get_all_posts fuel web url 0)) = fuel.
Proof.
  intros Hweb. unfold get_all_posts. simpl.
  destruct (crawl_loop_endless_unbounded web Hweb fuel url [] new_session) as [H1 H2].
  split; [exact H1 | exact H2].
Qed.

Lemma unbounded_crawl_diverges_witness :
  snd (get_all_posts 7 (Sample.serving Sample.last_page Sample.page_with_next)
         "https://www.reddit.com/r/pics/" 0) = None /\
  pages_fetched (fst (get_all_posts 7 (Sample.serving Sample.last_page Sample.page_with_next)
                        "https://www.reddit.com/r/pics/" 0)) = 7.
Proof.
  apply unbounded_crawl_diverges. exact serving_page_with_next_endless.
Defined.

Lemma crawl_loop_origin (fuel : nat) (web : Web) (pages : Z) :
  forall url page crawl images s posts,
    Forall (fun r => exists u, on_page r = Some u /\ In u (visited s)) images ->
    snd (crawl_loop fuel web pages url page crawl images s) = Some (Ok posts) ->
    Forall (fun r => exists u, on_page r = Some u /\
                      In u (visited (fst (crawl_loop fuel web pages url page crawl images s))))
           posts.
Proof.
  induction fuel as [|fuel IH]; intros url page crawl images s posts Himgs;
    cbn [crawl_loop].
  - destruct ((page <=? pages)%Z && crawl); simpl; [discriminate |].
    now intros [= <-].
  - destruct ((page <=? pages)%Z && crawl); [| simpl; now intros [= <-]].
    destruct (make_beautiful_soup web url s) as [s1 [soup|e]] eqn:Hs1; [|discriminate].
    apply make_beautiful_soup_ok in Hs1 as [u [-> [_ [Hv _]]]].
    destruct (get_files_from_a_page web soup (Some u)) as [[pictures next_page]|e] eqn:Hext;
      [|discriminate].
    apply IH. apply Forall_app. split.
    + eapply Forall_impl; [|exact Himgs]. intros r [u' [Hon Hin]].
      exists u'. split; [assumption |]. simpl. rewrite Hv. apply in_or_app. now left.
    + apply get_files_from_a_page_on_page in Hext.
      eapply Forall_impl; [|exact Hext]. intros r [Hon _].
      exists u. split; [assumption |]. simpl. rewrite Hv. apply in_or_app. right. now left.
Qed.

(** X12. Every record a crawl returns names, in [on_page], a listing page
    the session has loaded during that crawl. *)
Theorem records_come_from_visited_pages (fuel : nat) (web : Web) (url : string) (pages : Z)
    (posts : list post) :
  snd (get_all_posts fuel web url pages) = Some (Ok posts) ->
  Forall (fun r => exists u, on_page r = Some u /\
                    In u (visited (fst (get_all_posts fuel web url pages)))) posts.
Proof.
  unfold get_all_posts. apply crawl_loop_origin. constructor.
Qed.

Lemma records_come_from_visited_pages_witness :
  exists posts,
    List.length posts = 2 /\
    Forall (fun r => exists u, on_page r = Some u /\
                      In u (visited (fst (get_all_posts 5
                              (Sample.serving Sample.last_page Sample.page_with_next)
                              "https://www.reddit.com/r/pics/" 2)))) posts.
Proof.
  eexists. split; [| apply (records_come_from_visited_pages 5
                             (Sample.serving Sample.last_page Sample.page_with_next)
                             "https://www.reddit.com/r/pics/" 2); reflexivity].
  reflexivity.
Defined.

(** ** Runs of the download function *)

Section DownloadRuns.

Import Downloader.

Lemma existsb_eqb_In (d : string) (l : list string) :
  existsb (String.eqb d) l = true <-> In d l.
Proof.
  rewrite existsb_exists. split.
  - intros [x [Hin Heq]]. apply String.eqb_eq in Heq. now subst.
  - intros Hin. exists d. split; [assumption | apply String.eqb_refl].
Qed.

(** The loop touches nothing but the console. *)
Lemma download_loop_frame (g : globals) (verbose : bool) (total current : nat)
    (files : list post) (w : world) :
  let w' := fst (download_loop g verbose total current files w) in
  cwd w' = cwd w /\ directories w' = directories w /\
  databases w' = databases w /\ transferred w' = transferred w.
Proof.
  revert w. induction files as [|file_obj files IH]; intros w; cbn [download_loop].
  - now repeat split.
  - unfold seq.
    destruct (Str.truthy_opt (image_url (image_of file_obj))); [| apply IH].
    destruct verbose; [| apply IH].
    destruct (display_status_binding g) as [ds|]; simpl; [| now repeat split].
    destruct (image_url (image_of file_obj)) as [m|]; simpl; [| apply IH].
    specialize (IH (fst (display (ds m current total) w))). simpl in IH. exact IH.
Qed.

Lemma download_loop_silent (g : globals) (total current : nat) (files : list post) (w : world) :
  download_loop g false total current files w = (w, Ok tt).
Proof.
  induction files as [|file_obj files IH]; cbn [download_loop]; [reflexivity |].
  unfold seq. now destruct (Str.truthy_opt (image_url (image_of file_obj))).
Qed.

Lemma download_loop_unbound (g : globals) (verbose : bool) (total current : nat)
    (files : list post) (w : world) :
  display_status_binding g = None ->
  download_loop g verbose total current files w
  = (w, if verbose && existsb downloadable files
        then Raise (NameError "display_status") else Ok tt).
Proof.
  intros Hg. destruct verbose; [| apply download_loop_silent].
  induction files as [|file_obj files IH]; cbn [download_loop existsb]; [reflexivity |].
  unfold seq, downloadable at 1.
  destruct (Str.truthy_opt (image_url (image_of file_obj))); simpl.
  - now rewrite Hg.
  - exact IH.
Qed.

Lemma download_loop_bound (g : globals) (ds : string -> nat -> nat -> string)
    (total current : nat) (files : list post) (w : world) :
  display_status_binding g = Some ds ->
  snd (download_loop g true total current files w) = Ok tt /\
  console (fst (download_loop g true total current files w))
  = console w ++ List.map (fun m => ds m current total) (media_urls files).
Proof.
  intros Hg. revert w.
  induction files as [|file_obj files IH]; intros w; cbn [download_loop media_urls].
  - simpl. now rewrite app_nil_r.
  - unfold seq. destruct (image_url (image_of file_obj)) as [m|]; simpl; [| apply IH].
    destruct (Str.truthy m); simpl; [| apply IH].
    rewrite Hg. simpl.
    destruct (IH (fst (display (ds m current total) w))) as [Hr Hc].
    simpl in Hr, Hc. split; [exact Hr |]. rewrite Hc. now rewrite <- app_assoc.
Qed.

Lemma chdir_frame (d : string) (w : world) :
  directories (fst (chdir d w)) = directories w /\
  databases (fst (chdir d w)) = databases w /\
  console (fst (chdir d w)) = console w /\
  (cwd (fst (chdir d w)) = d \/ chdir d w = (w, Raise FileNotFoundError)).
Proof.
  unfold chdir. destruct (existsb (String.eqb d) (directories w)); simpl;
    repeat split; auto.
Qed.

Lemma rows_of_databases (w w' : world) (p source : string) :
  databases w' = databases w -> rows_of w' p source = rows_of w p source.
Proof. unfold rows_of. now intros ->. Qed.

(** Opening a connection changes no row, whether it succeeds or not, and
    leaves every store that exists as it is. *)
Lemma make_connection_frame (u : imports) (path : string) (w : world) :
  let w' := fst (make_connection u path w) in
  cwd w' = cwd w /\ directories w' = directories w /\ console w' = console w /\
  (forall f source, rows_of w' f source = rows_of w f source) /\
  (forall f d, lookup_db f (databases w) = Some d -> lookup_db f (databases w') = Some d).
Proof.
  unfold make_connection. destruct (database_file u path w) as [file|]; [| now repeat split].
  destruct (lookup_db file (databases w)) eqn:Hl; simpl; [now repeat split |].
  repeat split.
  - intros f source. unfold rows_of. simpl. rewrite lookup_store_db.
    destruct (String.eqb file f) eqn:Hf; [| reflexivity].
    apply String.eqb_eq in Hf; subst f. now rewrite Hl.
  - intros f d Hd. rewrite lookup_store_db.
    destruct (String.eqb file f) eqn:Hf; [| assumption].
    apply String.eqb_eq in Hf; subst f. congruence.
Qed.

Lemma make_connection_result (u : imports) (path : string) (w : world) :
  snd (make_connection u path w)
  = match database_file u path w with
    | Some file => Ok file
    | None => Raise OperationalError
    end.
Proof.
  unfold make_connection. destruct (database_file u path w) as [file|]; [| reflexivity].
  now destruct (lookup_db file (databases w)).
Qed.

Lemma executescript_frame (u : imports) (conn : string) (w : world) :
  let w' := fst (executescript_DB_TEMPLATE u conn w) in
  cwd w' = cwd w /\ directories w' = directories w /\ console w' = console w.
Proof.
  unfold executescript_DB_TEMPLATE. destruct (script_failure u conn w); now repeat split.
Qed.

(** Opening the store moves nothing but stores. *)
Lemma open_store_frame (u : imports) (db_path : string) (w : world) :
  let w' := fst (open_store u db_path w) in
  cwd w' = cwd w /\ directories w' = directories w /\ console w' = console w.
Proof.
  unfold open_store, seq, ret.
  destruct (negb (is_valid_path u db_path w)).
  - destruct (make_connection_frame u db_path w) as [Hc [Hd [Ho _]]].
    destruct (make_connection u db_path w) as [wa [conn|e]]; cbn [fst] in *;
      [| now repeat split].
    destruct (executescript_frame u conn wa) as [Hc2 [Hd2 Ho2]].
    destruct (executescript_DB_TEMPLATE u conn wa) as [wb [[]|e]]; cbn [fst] in *.
    + destruct (make_connection_frame u db_path wb) as [Hc3 [Hd3 [Ho3 _]]].
      repeat split; congruence.
    + repeat split; congruence.
  - destruct (make_connection_frame u db_path w) as [Hc [Hd [Ho _]]].
    now repeat split.
Qed.

(** The function past its first lines: the store is opened in the
    destination, the loop runs, the directory is put back. *)
Lemma download_files_in_run (g : globals) (u : imports) (files : list post)
    (destination : string) (verbose : bool) (w : world) (path : string) :
  existsb (String.eqb destination) (directories w) = true ->
  path_binding g = Some path ->
  download_files_in g u files destination verbose w
  = match open_store u (clean_path u path ++ "/db.sqlite")%string
            (fst (chdir destination w)) with
    | (w3, Raise e) => (w3, Raise e)
    | (w3, Ok _) =>
        match download_loop g verbose (count_downloadable_images u files) 1 files w3 with
        | (w4, Ok _) => chdir (cwd w) w4
        | (w4, Raise e) => (w4, Raise e)
        end
    end.
Proof.
  intros Hdir Hpath.
  assert (chdir destination w = (fst (chdir destination w), Ok tt)) as Hch
    by (unfold chdir; now rewrite Hdir).
  set (w1 := fst (chdir destination w)) in *.
  unfold download_files_in, open_store, seq, getcwd. rewrite Hch, Hpath.
  cbn [load_name ret].
  destruct (negb (is_valid_path u (clean_path u path ++ "/db.sqlite") w1)).
  - destruct (make_connection u (clean_path u path ++ "/db.sqlite") w1) as [wa [conn|e]];
      [| reflexivity].
    destruct (executescript_DB_TEMPLATE u conn wa) as [wb [[]|e]]; [| reflexivity].
    destruct (make_connection u (clean_path u path ++ "/db.sqlite") wb) as [w3 [c|e]];
      [| reflexivity].
    destruct (download_loop g verbose (count_downloadable_images u files) 1 files w3)
      as [w4 [[]|e]]; reflexivity.
  - destruct (make_connection u (clean_path u path ++ "/db.sqlite") w1) as [w3 [c|e]];
      [| reflexivity].
    destruct (download_loop g verbose (count_downloadable_images u files) 1 files w3)
      as [w4 [[]|e]]; reflexivity.
Qed.

(** X13. With [path] bound and [display_status] left unbound, as in the
    module, a run in an existing destination first opens the store: when
    that raises (the file cannot be opened, the template fails), the run
    ends with that exception. Otherwise the run fails with
    [NameError: display_status] exactly when it is verbose and the queue
    holds a record with a media URL, and returns in every other case. *)
Theorem verbose_run_needs_display_status (u : imports) (path : string) (files : list post)
    (destination : string) (verbose : bool) (w : world) :
  In destination (directories w) -> In (cwd w) (directories w) ->
  snd (download_files_in (path_only_globals path) u files destination verbose w)
  = match snd (open_store u (clean_path u path ++ "/db.sqlite")%string
                 (fst (chdir destination w))) with
    | Raise e => Raise e
    | Ok _ =>
        if verbose && existsb downloadable files
        then Raise (NameError "display_status") else Ok tt
    end.
Proof.
  intros Hdest Hcwd. apply existsb_eqb_In in Hdest. apply existsb_eqb_In in Hcwd.
  rewrite (download_files_in_run (path_only_globals path) u files destination verbose w
             path Hdest eq_refl).
  destruct (open_store_frame u (clean_path u path ++ "/db.sqlite")%string
              (fst (chdir destination w))) as [_ [Hd _]].
  destruct (chdir_frame destination w) as [Hd1 _]. rewrite Hd1 in Hd.
  destruct (open_store u (clean_path u path ++ "/db.sqlite") (fst (chdir destination w)))
    as [w3 [conn|e]]; cbn [fst snd] in *; [| reflexivity].
  rewrite download_loop_unbound by reflexivity.
  destruct (verbose && existsb downloadable files); [reflexivity |].
  unfold chdir. now rewrite Hd, Hcwd.
Qed.

Lemma verbose_run_needs_display_status_witness :
  snd (download_files_in (path_only_globals "/home/user/pics") Sample.helpers
         [unresolved_post; Sample.resolved_post] "/home/user/pics" true Sample.fresh_world)
  = Raise (NameError "display_status") /\
  snd (download_files_in (path_only_globals "/home/user/albums") Sample.helpers
         [unresolved_post; Sample.resolved_post] "/home/user/pics" true Sample.fresh_world)
  = Raise OperationalError.
Proof.
  split.
  - refine (verbose_run_needs_display_status Sample.helpers "/home/user/pics"
              [unresolved_post; Sample.resolved_post] "/home/user/pics" true
              Sample.fresh_world _ _); simpl; tauto.
  - refine (verbose_run_needs_display_status Sample.helpers "/home/user/albums"
              [unresolved_post; Sample.resolved_post] "/home/user/pics" true
              Sample.fresh_world _ _); simpl; tauto.
Defined.

(** X14. With both names bound, a verbose run in an existing destination
    that could open its store returns and prints one status line for each
    record with a media URL, in queue order; every line carries the index
    1, since the loop never advances its counter, and the total that
    [count_downloadable_images] gave for the whole queue. A run that could
    not open its store ends with the exception of that and prints
    nothing. *)
Theorem progress_index_stays_one (u : imports) (path : string)
    (ds : string -> nat -> nat -> string) (files : list post)
    (destination : string) (w : world) :
  In destination (directories w) -> In (cwd w) (directories w) ->
  let run := download_files_in (bound_globals path ds) u files destination true w in
  match snd (open_store u (clean_path u path ++ "/db.sqlite")%string
               (fst (chdir destination w))) with
  | Ok _ =>
      snd run = Ok tt /\
      console (fst run)
      = console w ++ List.map (fun m => ds m 1 (count_downloadable_images u files))
                              (media_urls files)
  | Raise e => snd run = Raise e /\ console (fst run) = console w
  end.
Proof.
  intros Hdest Hcwd run. apply existsb_eqb_In in Hdest. apply existsb_eqb_In in Hcwd.
  unfold run.
  rewrite (download_files_in_run (bound_globals path ds) u files destination true w
             path Hdest eq_refl).
  destruct (open_store_frame u (clean_path u path ++ "/db.sqlite")%string
              (fst (chdir destination w))) as [_ [Hd Ho]].
  destruct (chdir_frame destination w) as [Hd1 [_ [Ho1 _]]]. rewrite Hd1 in Hd.
  rewrite Ho1 in Ho.
  destruct (open_store u (clean_path u path ++ "/db.sqlite") (fst (chdir destination w)))
    as [w3 [conn|e]]; cbn [fst snd] in *; [| now split].
  destruct (download_loop_bound (bound_globals path ds) ds
              (count_downloadable_images u files) 1 files w3 eq_refl) as [Hr Hc].
  destruct (download_loop_frame (bound_globals path ds) true
              (count_downloadable_images u files) 1 files w3) as [_ [Hd' _]].
  cbv zeta in Hd'.
  destruct (download_loop (bound_globals path ds) true
              (count_downloadable_images u files) 1 files w3) as [w4 r].
  cbn [fst snd] in *. subst r.
  unfold chdir. rewrite Hd', Hd, Hcwd. cbn [fst snd console].
  split; [reflexivity |]. now rewrite Hc, Ho.
Qed.

Lemma progress_index_stays_one_witness :
  snd (download_files_in
         (bound_globals "/home/user/pics"
            (fun m i n => (m ++ (if Nat.eqb i 1 then " #1" else " #later"))%string))
         Sample.helpers
         [Sample.resolved_post; unresolved_post; Sample.resolved_post]
         "/home/user/pics" true Sample.fresh_world) = Ok tt /\
  console (fst (download_files_in
                  (bound_globals "/home/user/pics"
                     (fun m i n => (m ++ (if Nat.eqb i 1 then " #1" else " #later"))%string))
                  Sample.helpers
                  [Sample.resolved_post; unresolved_post; Sample.resolved_post]
                  "/home/user/pics" true Sample.fresh_world))
  = ["https://i.redd.it/one.png #1"; "https://i.redd.it/one.png #1"].
Proof.
  refine (progress_index_stays_one Sample.helpers "/home/user/pics" _
            [Sample.resolved_post; unresolved_post; Sample.resolved_post]
            "/home/user/pics" Sample.fresh_world _ _); simpl; tauto.
Defined.

Lemma final_databases (g : globals) (u : imports) (files : list post)
    (destination : string) (verbose : bool) (w : world) (path : string) :
  existsb (String.eqb destination) (directories w) = true ->
  path_binding g = Some path ->
  databases (fst (download_files_in g u files destination verbose w))
  = databases (fst (open_store u (clean_path u path ++ "/db.sqlite")%string
                      (fst (chdir destination w)))) /\
  forall e,
    snd (open_store u (clean_path u path ++ "/db.sqlite")%string
           (fst (chdir destination w))) = Raise e ->
    snd (download_files_in g u files destination verbose w) = Raise e.
Proof.
  intros Hdir Hpath.
  rewrite (download_files_in_run g u files destination verbose w path Hdir Hpath).
  destruct (open_store u (clean_path u path ++ "/db.sqlite") (fst (chdir destination w)))
    as [w3 [conn|e]]; cbn [fst snd]; [| split; [reflexivity | intros e0 H; now injection H as ->]].
  split; [| discriminate].
  destruct (download_loop_frame g verbose (count_downloadable_images u files) 1 files w3)
    as [_ [_ [Hdb _]]]. cbv zeta in Hdb.
  destruct (download_loop g verbose (count_downloadable_images u files) 1 files w3)
    as [w4 [[]|e]]; cbn [fst] in *; [| exact Hdb].
  destruct (chdir_frame (cwd w) w4) as [_ [H _]]. now rewrite H.
Qed.

(** X15. What a run does to the rows is decided by [is_valid_path]. When
    the path of the store is reported valid, no row of any store changes.
    When it is reported invalid, the run connects and runs the template: if
    the file cannot be opened the run raises [OperationalError], if the
    template fails the run raises its exception, and in both cases no row
    changes; if the template runs through, the [images] table of the file
    that the path names is dropped and created anew, so whatever rows it
    held are gone, and every other file keeps its rows. *)
Theorem store_kept_or_reset (g : globals) (u : imports) (files : list post)
    (destination : string) (verbose : bool) (w : world) (path : string) :
  In destination (directories w) ->
  path_binding g = Some path ->
  let db_path := (clean_path u path ++ "/db.sqlite")%string in
  let w1 := fst (chdir destination w) in
  let run := download_files_in g u files destination verbose w in
  (is_valid_path u db_path w1 = true ->
     forall f source, rows_of (fst run) f source = rows_of w f source) /\
  (is_valid_path u db_path w1 = false ->
     match database_file u db_path w1 with
     | None =>
         snd run = Raise OperationalError /\
         forall f source, rows_of (fst run) f source = rows_of w f source
     | Some file =>
         match script_failure u file (fst (make_connection u db_path w1)) with
         | Some e =>
             snd run = Raise e /\
             forall f source, rows_of (fst run) f source = rows_of w f source
         | None =>
             lookup_db file (databases (fst run)) = Some {| images := Some [] |} /\
             (forall source, rows_of (fst run) file source = []) /\
             (forall f source, f <> file ->
                rows_of (fst run) f source = rows_of w f source)
         end
     end).
Proof.
  intros Hdest Hpath db_path w1 run. apply existsb_eqb_In in Hdest.
  destruct (final_databases g u files destination verbose w path Hdest Hpath)
    as [Hfin Hraise]. fold db_path w1 run in Hfin, Hraise.
  assert (forall f source, rows_of w1 f source = rows_of w f source) as Hw1.
  { intros f source. apply rows_of_databases. apply (chdir_frame destination w). }
  assert (forall w2 f source,
            rows_of (fst (make_connection u db_path w2)) f source = rows_of w2 f source)
    as Hconn by (intros w2; apply (make_connection_frame u db_path w2)).
  split; intros Hvalid.
  - intros f source. rewrite (rows_of_databases _ _ f source Hfin).
    unfold open_store, seq, ret. rewrite Hvalid. cbn [negb fst].
    now rewrite Hconn.
  - unfold open_store, seq, ret in Hfin, Hraise. rewrite Hvalid in Hfin, Hraise.
    cbn [negb] in Hfin, Hraise.
    pose proof (make_connection_result u db_path w1) as Hres.
    specialize (Hconn w1).
    destruct (make_connection u db_path w1) as [wa [conn|e]] eqn:Hmc;
      destruct (database_file u db_path w1) as [file|]; cbn [fst snd] in *;
      try discriminate.
    + injection Hres as ->. unfold executescript_DB_TEMPLATE in Hfin, Hraise |- *.
      destruct (script_failure u file wa) as [e|] eqn:Hscript.
      * split; [now apply Hraise |]. intros f source.
        now rewrite (rows_of_databases _ _ f source Hfin), Hconn.
      * cbn [fst snd] in Hfin.
        set (wb := set_databases (store_db file {| images := Some [] |} (databases wa)) wa)
          in *.
        assert (lookup_db file (databases wb) = Some {| images := Some [] |}) as Hlook
          by (unfold wb; simpl; rewrite lookup_store_db; now rewrite String.eqb_refl).
        destruct (make_connection_frame u db_path wb) as [_ [_ [_ [Hrows Hkeep]]]].
        cbv zeta in Hrows, Hkeep.
        assert (lookup_db file (databases (fst run)) = Some {| images := Some [] |})
          as Hfinal by (rewrite Hfin; now apply Hkeep).
        split; [exact Hfinal | split].
        -- intros source. unfold rows_of. now rewrite Hfinal.
        -- intros f source Hne. rewrite (rows_of_databases _ _ f source Hfin), Hrows.
           unfold rows_of at 1, wb. simpl. rewrite lookup_store_db.
           destruct (String.eqb file f) eqn:Hf; [apply String.eqb_eq in Hf; congruence |].
           fold (rows_of wa f source). now rewrite Hconn.
    + injection Hres as <-. split; [now apply Hraise |]. intros f source.
      now rewrite (rows_of_databases _ _ f source Hfin), Hconn.
Qed.

Lemma store_kept_or_reset_witness :
  rows_of (fst (download_files_in Sample.repaired_globals Sample.helpers
                  [Sample.resolved_post] "/home/user/pics" false used_world))
    "/home/user/pics/db.sqlite" "https://www.reddit.com/r/pics/comments/6abcde/a_post/"
  = rows_of used_world
      "/home/user/pics/db.sqlite" "https://www.reddit.com/r/pics/comments/6abcde/a_post/".
Proof.
  refine (proj1 (store_kept_or_reset Sample.repaired_globals Sample.helpers
                   [Sample.resolved_post] "/home/user/pics" false used_world
                   "/home/user/pics" _ eq_refl) eq_refl
            "/home/user/pics/db.sqlite"
            "https://www.reddit.com/r/pics/comments/6abcde/a_post/").
  simpl. tauto.
Defined.

(** A store that exists is reset all the same when the path check says
    no: its downloaded row is lost. *)
Example store_reset_loses_rows :
  rows_of used_world "/home/user/pics/db.sqlite"
    "https://www.reddit.com/r/pics/comments/6abcde/a_post/" = [stored_row] /\
  rows_of (fst (download_files_in Sample.repaired_globals distrustful_helpers []
                  "/home/user/pics" false used_world))
    "/home/user/pics/db.sqlite"
    "https://www.reddit.com/r/pics/comments/6abcde/a_post/" = [].
Proof. split; reflexivity. Qed.

(** X16. The working directory is put back only by a run that returns:
    then it is the one the run started in. A run that raises after entering
    an existing destination stays there, and a run whose destination does
    not exist changes nothing. *)
Theorem working_directory_restored_only_on_return (g : globals) (u : imports)
    (files : list post) (destination : string) (verbose : bool) (w : world) :
  let run := download_files_in g u files destination verbose w in
  (snd run = Ok tt -> cwd (fst run) = cwd w) /\
  (forall e, snd run = Raise e -> In destination (directories w) ->
     cwd (fst run) = destination) /\
  (~ In destination (directories w) -> run = (w, Raise FileNotFoundError)).
Proof.
  intros run. unfold run.
  destruct (existsb (String.eqb destination) (directories w)) eqn:Hdir.
  - assert (In destination (directories w)) as Hin by now apply existsb_eqb_In.
    assert (cwd (fst (chdir destination w)) = destination) as Hc1
      by (unfold chdir; now rewrite Hdir).
    destruct (path_binding g) as [path|] eqn:Hpath.
    + rewrite (download_files_in_run g u files destination verbose w path Hdir Hpath).
      destruct (open_store_frame u (clean_path u path ++ "/db.sqlite")%string
                  (fst (chdir destination w))) as [Hc _].
      rewrite Hc1 in Hc.
      destruct (open_store u (clean_path u path ++ "/db.sqlite")
                  (fst (chdir destination w))) as [w3 [conn|e0]]; cbn [fst snd] in *.
      * destruct (download_loop_frame g verbose (count_downloadable_images u files) 1
                    files w3) as [Hc' _]. cbv zeta in Hc'. rewrite Hc in Hc'.
        destruct (download_loop g verbose (count_downloadable_images u files) 1 files w3)
          as [w4 [[]|e']]; cbn [fst snd] in *.
        -- unfold chdir.
           destruct (existsb (String.eqb (cwd w)) (directories w4)); cbn [fst snd].
           ++ split; [reflexivity | split; [discriminate | contradiction]].
           ++ split; [discriminate | split; [now intros | contradiction]].
        -- split; [discriminate | split; [now intros | contradiction]].
      * split; [discriminate | split; [now intros | contradiction]].
    + unfold download_files_in, seq, getcwd, chdir. rewrite Hdir, Hpath. cbn.
      split; [discriminate | split; [now intros | contradiction]].
  - assert (~ In destination (directories w)) as Hnot
      by (rewrite <- existsb_eqb_In; congruence).
    unfold download_files_in, seq, getcwd, chdir. rewrite Hdir. cbn.
    split; [discriminate | split; [intros; contradiction | reflexivity]].
Qed.

Lemma working_directory_restored_only_on_return_witness :
  cwd (fst (download_files Sample.helpers [Sample.resolved_post] "/home/user/pics" false
              Sample.fresh_world)) = "/home/user/pics".
Proof.
  refine (proj1 (proj2 (working_directory_restored_only_on_return module_globals
            Sample.helpers [Sample.resolved_post] "/home/user/pics" false
            Sample.fresh_world)) (NameError "path") eq_refl _).
  simpl. tauto.
Defined.

End DownloadRuns.
